(** * The terminal block state machine of ScrollableTerminal.tsx

    A shallow embedding of
    [plugins/plugin-client-common/src/components/Views/Terminal/ScrollableTerminal.tsx]:
    the ordered sequence of REPL blocks of one tab, and the handlers that
    react to command-start, command-complete and terminal-clear events and
    to the removal of a block.

    JavaScript arrays are lists, array indices are integers ([Z], because
    [length - 1] and [findIndex] can be [-1]), [undefined] is [None], and
    the handlers run in a small monad that records the calls made to the
    outside ([console.error], [props.onClear], [props.closeSidecar]) and
    carries a thrown exception.

    The development also covers the rest of the component (focus, the
    subscriptions to the event channel, rendering) and the transformer of
    the table of namespaces into a radio table ([hintsFor], [t2rt],
    [asRadioTable]). *)

From Stdlib Require Import List String ZArith Bool Lia.
From Stdlib Require Import QArith Qminmax Lqa.

Close Scope Q_scope.
Import ListNotations.

Local Open Scope list_scope.

(** ** JavaScript array operations used by the component *)

Module JsArray.

Definition length {A : Type} (l : list A) : Z := Z.of_nat (List.length l).

(** The relative-index rule of [Array.prototype.slice]: a negative index
    counts from the end, and the result is kept within [0 .. len]. *)
Definition clamp (len i : Z) : Z :=
  if (i <? 0)%Z then Z.max (len + i) 0 else Z.min i len.

(** [l.slice(s, e)] *)
Definition slice {A : Type} (l : list A) (s e : Z) : list A :=
  let len := length l in
  let k := clamp len s in
  let f := clamp len e in
  firstn (Z.to_nat (f - k)) (skipn (Z.to_nat k) l).

(** [l.slice(s)] *)
Definition slice_from {A : Type} (l : list A) (s : Z) : list A :=
  slice l s (length l).

(** [l[i]]; [None] is [undefined]. *)
Definition get {A : Type} (l : list A) (i : Z) : option A :=
  if (i <? 0)%Z then None else nth_error l (Z.to_nat i).

Fixpoint findIndex_from {A : Type} (p : A -> bool) (l : list A) (i : Z) : Z :=
  match l with
  | [] => (-1)%Z
  | x :: r => if p x then i else findIndex_from p r (i + 1)%Z
  end.

(** [l.findIndex(p)] *)
Definition findIndex {A : Type} (p : A -> bool) (l : list A) : Z :=
  findIndex_from p l 0%Z.

(** [l.find(p)] *)
Definition find {A : Type} (p : A -> bool) (l : list A) : option A :=
  List.find p l.

(** [l.concat(r)] *)
Definition concat {A : Type} (l r : list A) : list A := l ++ r.

End JsArray.

(** ** Effects of a handler: calls to the outside, and exceptions *)

(** A thrown JavaScript value; only its message is kept. *)
Inductive Exn : Type :=
| Thrown (message : string).

Inductive Effect : Type :=
| ConsoleError (message : string) (detail : string)  (* console.error(message, detail) *)
| OnClearCalled                                      (* this.props.onClear() *)
| CloseSidecarCalled.                                (* this.props.closeSidecar() *)

(** A computation: the calls it made, in order, and either the exception
    it threw or the value it returned. *)
Definition M (A : Type) : Type := (list Effect * (Exn + A))%type.

Definition ret {A : Type} (a : A) : M A := ([], inr a).

Definition throw {A : Type} (e : Exn) : M A := ([], inl e).

Definition tell (eff : Effect) : M unit := ([eff], inr tt).

Definition bind {A B : Type} (m : M A) (k : A -> M B) : M B :=
  match m with
  | (log, inl e) => (log, inl e)
  | (log, inr a) => let (log', r) := k a in (log ++ log', r)
  end.

(** [try { m } catch (err) { h err }] *)
Definition try_catch {A : Type} (m : M A) (h : Exn -> M A) : M A :=
  match m with
  | (log, inl e) => let (log', r) := h e in (log ++ log', r)
  | (log, inr a) => (log, inr a)
  end.

Declare Scope js_scope.
Delimit Scope js_scope with js.
Notation "x <- m ;; k" := (bind m (fun x => k))
  (at level 61, m at next level, right associativity) : js_scope.
Notation "m ;;; k" := (bind m (fun _ => k))
  (at level 61, right associativity) : js_scope.

Definition effects {A : Type} (m : M A) : list Effect := fst m.

Definition returned {A : Type} (m : M A) : option A :=
  match snd m with inr a => Some a | inl _ => None end.

Definition thrown {A : Type} (m : M A) : option Exn :=
  match snd m with inl e => Some e | inr _ => None end.

Definition message_of (e : Exn) : string :=
  match e with Thrown s => s end.

(** ** Values exchanged with the rest of the shell *)

(** The part of [CommandOptions] and of [ExecOptions] (declared in
    [@kui-shell/core]) that the component reads: the optional
    [alwaysViewIn] override. *)
Record ViewOptions : Type := { alwaysViewIn : option string }.

Definition CommandOptions : Type := ViewOptions.
Definition ExecOptions : Type := ViewOptions.

(** The part of [KuiConfiguration] that the component reads. *)
Record KuiConfiguration : Type := { enableWatchPane : bool }.

(** Modelled from the spec: the child component [Block] (./Block), of which
    the terminal only calls [inputValue()], the text typed so far into the
    block's input. *)
Record Block : Type := { inputValue : string }.

(** [Props] of the component. [onClear] tells whether the optional handler
    was supplied; calling it, or [closeSidecar], is recorded as an
    [Effect]. The tab identifier and the tab model only name the event
    channels and are left out. *)
Record Props : Type := {
  onClear : bool;
  config : KuiConfiguration;
  sidecarIsVisible : bool
}.

(** [x === 'Terminal'] for an optional string *)
Definition is_Terminal (o : ViewOptions) : bool :=
  match alwaysViewIn o with
  | Some s => String.eqb s "Terminal"
  | None => false
  end.

(** [echo === false]; [None] is an absent ([undefined]) flag. *)
Definition is_false (echo : option bool) : bool :=
  match echo with
  | Some false => true
  | _ => false
  end.

Section Terminal.

(** [ScalarResponse], [isWatchable] and [isPopup] come from
    [@kui-shell/core] and are taken as they are. *)
Context {ScalarResponse : Type}.
Variable isWatchable : ScalarResponse -> bool.
Variable isPopup : bool.

(** *** Block model *)

(** The second argument of [Finished]: the response, or a plain [true]. *)
Inductive ResponseOrTrue : Type :=
| StructuredResponse (response : ScalarResponse)
| PlainTrue.

(** Modelled from the spec: the block states of ./Block/BlockModel. A
    block is [Active], [Processing], [Finished] or [Cancelled]; each
    transition keeps the block it was built from, so that nothing a
    constructor could retain is lost. The previous block of [Processing]
    and [Cancelled] is optional because the terminal passes them
    [blocks[idx]], which is [undefined] on an empty sequence. *)
#[warnings="-register-all"] Inductive BlockModel : Type :=
| ActiveBlock (value : string)
| ProcessingBlock (previous : option BlockModel) (command execUUID : string)
| FinishedBlock (previous : BlockModel) (response : ResponseOrTrue) (cancelled : bool)
| CancelledBlock (previous : option BlockModel).

(** Modelled from the spec: the predicate [isActive] of ./Block/BlockModel. *)
Definition isActive (b : BlockModel) : bool :=
  match b with
  | ActiveBlock _ => true
  | _ => false
  end.

(** Modelled from the spec: the predicate [isProcessing] of
    ./Block/BlockModel. *)
Definition isProcessing (b : BlockModel) : bool :=
  match b with
  | ProcessingBlock _ _ _ => true
  | _ => false
  end.

(** Modelled from the spec: the field [execUUID] of a block, which the
    terminal reads on Processing blocks only. *)
Definition execUUID_of (b : BlockModel) : option string :=
  match b with
  | ProcessingBlock _ _ u => Some u
  | _ => None
  end.

(** [b.execUUID === execUUID] *)
Definition execUUID_is (b : BlockModel) (execUUID : string) : bool :=
  match execUUID_of b with
  | Some u => String.eqb u execUUID
  | None => false
  end.

(** A call of one of the four constructors of ./Block/BlockModel. *)
Inductive ConstructorCall : Type :=
| CallActive (initial : option string)
| CallProcessing (block : option BlockModel) (command execUUID : string)
| CallFinished (block : BlockModel) (response : ResponseOrTrue) (cancelled : bool)
| CallCancelled (block : option BlockModel).

(** Which constructor calls throw, and what. The terminal guards one of
    its uses of the constructors with [try]/[catch], so their failure is
    part of its behaviour. *)
Variable raises : ConstructorCall -> option Exn.

Definition construct (c : ConstructorCall) (b : BlockModel) : M BlockModel :=
  match raises c with
  | Some e => throw e
  | None => ret b
  end.

(** Modelled from the spec: [Active(capturedText?)] is a new block in
    Active state, its input pre-filled with [capturedText] if given, else
    empty. *)
Definition Active (initial : option string) : M BlockModel :=
  construct (CallActive initial)
    (ActiveBlock (match initial with Some s => s | None => EmptyString end)).

(** Modelled from the spec: [Processing(previousBlock, commandText, execId)]
    transitions a block into Processing, carrying the command text and the
    execution identifier. *)
Definition Processing (block : option BlockModel) (command execUUID : string)
  : M BlockModel :=
  construct (CallProcessing block command execUUID)
    (ProcessingBlock block command execUUID).

(** Modelled from the spec: [Finished(previousBlock, responseOrOk, cancelled)]
    transitions a Processing block into its final state. *)
Definition Finished (block : BlockModel) (response : ResponseOrTrue)
  (cancelled : bool) : M BlockModel :=
  construct (CallFinished block response cancelled)
    (FinishedBlock block response cancelled).

(** Modelled from the spec: [Cancelled(previousBlock)] transitions a block
    into the aborted state, with no response. *)
Definition Cancelled (block : option BlockModel) : M BlockModel :=
  construct (CallCancelled block) (CancelledBlock block).

(** *** The component *)

Record State : Type := { blocks : list BlockModel }.

(** An instance of the component: its props, its React state, and the
    reference [_activeBlock] that the rendering keeps to the active
    block's component. *)
Record ScrollableTerminal : Type := {
  props : Props;
  state : State;
  _activeBlock : option Block
}.

(** The instance with props [p], blocks [bs] and active-block reference
    [ab]. *)
Definition terminal (p : Props) (bs : list BlockModel) (ab : option Block)
  : ScrollableTerminal :=
  {| props := p; state := {| blocks := bs |}; _activeBlock := ab |}.

(** [this.setState(updater)]: the updater is given the current state; the
    state it returns replaces the blocks, and [undefined] ([None]) leaves
    the state as it is. *)
Definition setState (this : ScrollableTerminal)
  (updater : State -> M (option State)) : M ScrollableTerminal :=
  (r <- updater (state this) ;;
   ret match r with
       | Some s => {| props := props this; state := s;
                      _activeBlock := _activeBlock this |}
       | None => this
       end)%js.

(** [constructor(props)]; the subscription to the event channels is left
    out. *)
Definition constructor (p : Props) : M ScrollableTerminal :=
  (a <- Active None ;;
   ret {| props := p; state := {| blocks := [a] |}; _activeBlock := None |})%js.

(** The [ref] callback of [render]: the rendering layer stores the
    component of the active block, or [null]. *)
Definition setActiveBlock (this : ScrollableTerminal) (c : option Block)
  : ScrollableTerminal :=
  {| props := props this; state := state this; _activeBlock := c |}.

Definition clear (this : ScrollableTerminal) : M ScrollableTerminal :=
  ((if onClear (props this) then tell OnClearCalled else ret tt) ;;;
   setState this (fun _ =>
     let capturedValue :=
       match _activeBlock this with
       | Some b => inputValue b
       | None => EmptyString
       end in
     a <- Active (Some capturedValue) ;;
     ret (Some {| blocks := [a] |})))%js.

Definition onExecStart (this : ScrollableTerminal)
  (execUUID command : string) (echo : option bool) : M ScrollableTerminal :=
  if is_false echo then ret this
  else
    ((if isPopup && sidecarIsVisible (props this)
      then tell CloseSidecarCalled else ret tt) ;;;
     setState this (fun curState =>
       let idx := (JsArray.length (blocks curState) - 1)%Z in
       p <- Processing (JsArray.get (blocks curState) idx) command execUUID ;;
       ret (Some {| blocks :=
              JsArray.concat (JsArray.slice (blocks curState) 0 idx) [p] |})))%js.

(** The predicate given to [findIndex] in [onExecEnd]:
    [_ => isProcessing(_) && _.execUUID === execUUID]. *)
Definition matches (execUUID : string) (b : BlockModel) : bool :=
  isProcessing b && execUUID_is b execUUID.

(** The [showInTerminal] policy of [onExecEnd]. *)
Definition showInTerminal (p : Props) (response : ScalarResponse)
  (evaluatorOptions : CommandOptions) (execOptions : ExecOptions) : bool :=
  negb (enableWatchPane (config p))
  || negb (isWatchable response)
  || (isWatchable response
      && (is_Terminal evaluatorOptions || is_Terminal execOptions)).

(** The second argument that [onExecEnd] gives to [Finished]:
    [responseType === 'ScalarResponse' && showInTerminal ? response : true]. *)
Definition stored (p : Props) (response : ScalarResponse)
  (evaluatorOptions : CommandOptions) (execOptions : ExecOptions)
  (responseType : string) : ResponseOrTrue :=
  if String.eqb responseType "ScalarResponse"
     && showInTerminal p response evaluatorOptions execOptions
  then StructuredResponse response else PlainTrue.

Definition onExecEnd (this : ScrollableTerminal)
  (response : ScalarResponse) (cancelled : bool) (echo : option bool)
  (evaluatorOptions : CommandOptions) (execOptions : ExecOptions)
  (execUUID responseType : string) : M ScrollableTerminal :=
  if is_false echo then ret this
  else
    setState this (fun curState =>
      let inProcessIdx :=
        JsArray.findIndex (matches execUUID) (blocks curState) in
      let showInTerminal :=
        showInTerminal (props this) response evaluatorOptions execOptions in
      if (inProcessIdx >=? 0)%Z then
        match JsArray.get (blocks curState) inProcessIdx with
        | Some inProcess =>
          if isProcessing inProcess then
            try_catch
              (f <- Finished inProcess
                      (if String.eqb responseType "ScalarResponse" && showInTerminal
                       then StructuredResponse response else PlainTrue)
                      cancelled ;;
               a <- Active None ;;
               ret (Some {| blocks :=
                 JsArray.concat
                   (JsArray.concat
                      (JsArray.concat
                         (JsArray.slice (blocks curState) 0 inProcessIdx) [f])
                      (JsArray.slice_from (blocks curState) (inProcessIdx + 1)))
                   [a] |}))%js
              (fun err =>
                 tell (ConsoleError "error updating state" (message_of err)) ;;;
                 ret None)%js
          else
            (tell (ConsoleError
               "invalid state: got a command completion event for a block that is not processing"
               execUUID) ;;;
             ret None)%js
        | None =>
          (* [isProcessing(undefined)]: taken as false; [findIndex] only
             returns the index of a block, see [findIndex_get]. *)
          (tell (ConsoleError
             "invalid state: got a command completion event for a block that is not processing"
             execUUID) ;;;
           ret None)%js
        end
      else if cancelled then
        let inProcessIdx := (JsArray.length (blocks curState) - 1)%Z in
        let inProcess := JsArray.get (blocks curState) inProcessIdx in
        (c <- Cancelled inProcess ;;
         a <- Active None ;;
         ret (Some {| blocks :=
           JsArray.concat
             (JsArray.concat
                (JsArray.slice (blocks curState) 0 inProcessIdx) [c])
             [a] |}))%js
      else
        (tell (ConsoleError
           "invalid state: got a command completion event, but never got command start event"
           execUUID) ;;;
         ret None)%js).

(** [willRemoveBlock(idx)]: remove the block at the given index. *)
Definition willRemoveBlock (this : ScrollableTerminal) (idx : Z)
  : M ScrollableTerminal :=
  setState this (fun curState =>
    (extra <- match JsArray.find isActive (blocks curState) with
              | Some _ => ret []
              | None => (a <- Active None ;; ret [a])
              end ;;
     ret (Some {| blocks :=
       JsArray.concat
         (JsArray.concat
            (JsArray.slice (blocks curState) 0 idx)
            (JsArray.slice_from (blocks curState) (idx + 1)))
         extra |}))%js).

(** *** Events, and runs of the terminal *)

(** What reaches the terminal: the three channel events with their
    payloads, and the rendering layer's update of [_activeBlock]. *)
Inductive Event : Type :=
| CommandStart (execUUID command : string) (echo : option bool)
| CommandComplete (response : ScalarResponse) (cancelled : bool)
    (echo : option bool) (evaluatorOptions : CommandOptions)
    (execOptions : ExecOptions) (execUUID responseType : string)
| TerminalClear
| Rendered (c : option Block).

Definition handle (this : ScrollableTerminal) (ev : Event)
  : M ScrollableTerminal :=
  match ev with
  | CommandStart execUUID command echo => onExecStart this execUUID command echo
  | CommandComplete response cancelled echo evaluatorOptions execOptions
      execUUID responseType =>
      onExecEnd this response cancelled echo evaluatorOptions execOptions
        execUUID responseType
  | TerminalClear => clear this
  | Rendered c => ret (setActiveBlock this c)
  end.

(** One event, handled to completion. A handler only changes the terminal
    through the value its [setState] updater returns, so a handler that
    throws leaves the terminal as it was. *)
Definition dispatch (this : ScrollableTerminal) (ev : Event)
  : ScrollableTerminal :=
  match returned (handle this ev) with
  | Some this' => this'
  | None => this
  end.

Definition run (this : ScrollableTerminal) (evs : list Event)
  : ScrollableTerminal :=
  fold_left dispatch evs this.

(** The terminals seen after each event of a run, in order. *)
Fixpoint observations (this : ScrollableTerminal) (evs : list Event)
  : list ScrollableTerminal :=
  match evs with
  | [] => []
  | ev :: rest => dispatch this ev :: observations (dispatch this ev) rest
  end.

(** *** Shapes of a block sequence *)

Definition count (p : BlockModel -> bool) (bs : list BlockModel) : nat :=
  List.length (filter p bs).

(** A block that neither accepts input nor executes. *)
Definition isSettled (b : BlockModel) : bool :=
  negb (isActive b || isProcessing b).

(** Every block but the last is settled, and the last is Active or
    Processing. *)
Fixpoint open_last (bs : list BlockModel) : bool :=
  match bs with
  | [] => false
  | [b] => isActive b || isProcessing b
  | b :: rest => isSettled b && open_last rest
  end.

(** What [constructor] builds when [Active()] returns: a single, empty
    Active block. *)
Definition fresh (p : Props) : ScrollableTerminal :=
  terminal p [ActiveBlock EmptyString] None.

End Terminal.

Arguments BlockModel : clear implicits.
Arguments ResponseOrTrue : clear implicits.
Arguments ConstructorCall : clear implicits.
Arguments State : clear implicits.
Arguments ScrollableTerminal : clear implicits.
Arguments Event : clear implicits.

(** Modelled from the spec: the constructors of ./Block/BlockModel are pure
    and free of side effects, so none of their calls throws. *)
Definition never_raises {ScalarResponse : Type}
  : ConstructorCall ScalarResponse -> option Exn :=
  fun _ => None.

(** ** A sample setting *)

(** Props without an [onClear] handler, with the watch pane disabled and the
    sidecar closed. *)
Definition plain_props : Props :=
  {| onClear := false;
     config := {| enableWatchPane := false |};
     sidecarIsVisible := false |}.

(** Props with an [onClear] handler and the watch pane enabled. *)
Definition watch_props : Props :=
  {| onClear := true;
     config := {| enableWatchPane := true |};
     sidecarIsVisible := true |}.

(** Responses as plain text; the text ["watch"] stands for a watchable
    response. *)
Definition text_isWatchable (response : string) : bool :=
  String.eqb response "watch".

(** Constructors of which [Cancelled] throws. *)
Definition Cancelled_throws (c : ConstructorCall string) : option Exn :=
  match c with
  | CallCancelled _ => Some (Thrown "TypeError")
  | _ => None
  end.

(** Constructors of which [Active] throws. *)
Definition Active_throws (c : ConstructorCall string) : option Exn :=
  match c with
  | CallActive _ => Some (Thrown "cwd failed")
  | _ => None
  end.

(** ** Focus *)

(** The vertical extent of an element, as [getBoundingClientRect()] gives
    it. Lengths are rationals: the functions below only compare them and
    take one difference, whose sign is that of the exact difference. *)
Record DOMRect : Type := { top : Q; bottom : Q }.

(** What the component reads of the page: the two heights of the viewport,
    for each block component the element it holds in [state._block] (by its
    rectangle; [None] when it holds none), whether
    [document.querySelector('textarea.xterm-helper-textarea')] finds an
    element, whether [document.activeElement === document.body], and
    [getSelection().toString()]. *)
Record Page : Type := {
  clientHeight : Q;
  innerHeight : Q;
  _block : Block -> option DOMRect;
  xterm : bool;
  activeElementIsBody : bool;
  selection : string
}.

(** [x < y] on numbers *)
Definition Qlt_bool (x y : Q) : bool := negb (Qle_bool y x).

(** [x >= y] on numbers *)
Definition Qge_bool (x y : Q) : bool := Qle_bool y x.

(** Is the given element visible in the current viewport? *)
Definition isInViewport (page : Page) (rect : DOMRect) : bool :=
  let viewHeight := Qmax (clientHeight page) (innerHeight page) in
  negb (Qlt_bool (bottom rect) 0 || Qge_bool (top rect - viewHeight) 0).

(** The focus requests that the component can make. *)
Inductive FocusCall : Type :=
| ActiveBlockDoFocus   (* this._activeBlock.doFocus() *)
| XtermFocus.          (* xterm.focus() *)

(** A string as a condition: the empty string is false. *)
Definition truthy (s : string) : bool :=
  match s with
  | EmptyString => false
  | String _ _ => true
  end.

Section Focus.

Context {ScalarResponse : Type}.

(** [doFocus()]: the owner wants the current prompt to have the focus. *)
Definition doFocus (this : ScrollableTerminal ScalarResponse) (page : Page)
  : list FocusCall :=
  match _activeBlock this with
  | Some b =>
      match _block page b with
      | Some rect =>
          if isInViewport page rect then [ActiveBlockDoFocus] else []
      | None => []
      end
  | None => if xterm page then [XtermFocus] else []
  end.

Definition onClick (this : ScrollableTerminal ScalarResponse) (page : Page)
  : list FocusCall :=
  if activeElementIsBody page && negb (truthy (selection page))
  then doFocus this page
  else [].

End Focus.

(** ** Subscriptions to the event channel *)

(** The three methods that the component binds and registers. *)
Inductive Handler : Type :=
| OnExecStartHandler
| OnExecEndHandler
| ClearHandler.

(** A bound method, [this.onExecStart.bind(this)] and the like: the instance
    it is bound to and the method. Each [bind] yields a function of its
    own, which the model tells apart by the instance. *)
Record Listener : Type := { instance : nat; handler : Handler }.

Definition Handler_eqb (h h' : Handler) : bool :=
  match h, h' with
  | OnExecStartHandler, OnExecStartHandler => true
  | OnExecEndHandler, OnExecEndHandler => true
  | ClearHandler, ClearHandler => true
  | _, _ => false
  end.

Definition Listener_eqb (l l' : Listener) : bool :=
  Nat.eqb (instance l) (instance l') && Handler_eqb (handler l) (handler l').

(** Modelled from the spec: [eventChannelUnsafe] of [@kui-shell/core], a
    process-wide publish/subscribe bus keyed by string topic. It is the list
    of the registrations made, oldest first; [on] appends one, [off] removes
    the latest registration of the listener on the topic, if there is one,
    and the listeners of a topic are called in the order of registration. *)
Definition EventChannel : Type := list (string * Listener).

Definition on (channel : string) (l : Listener) (bus : EventChannel)
  : EventChannel :=
  bus ++ [(channel, l)].

Fixpoint remove_first (channel : string) (l : Listener) (bus : EventChannel)
  : EventChannel :=
  match bus with
  | [] => []
  | (c, f) :: rest =>
      if String.eqb c channel && Listener_eqb f l then rest
      else (c, f) :: remove_first channel l rest
  end.

Definition off (channel : string) (l : Listener) (bus : EventChannel)
  : EventChannel :=
  rev (remove_first channel l (rev bus)).

(** The listeners that an event on the topic reaches, in calling order. *)
Definition listeners (channel : string) (bus : EventChannel) : list Listener :=
  map snd (filter (fun s => String.eqb (fst s) channel) bus).

(** [type Cleaner = () => void]: an action on the bus. *)
Definition Cleaner : Type := EventChannel -> EventChannel.

(** The part of the component and of the process that the wiring touches:
    [this.cleaners] and the bus. *)
Record Wiring : Type := {
  cleaners : list Cleaner;
  eventChannelUnsafe : EventChannel
}.

(** [this.cleaners.push(cleaner)] *)
Definition push_cleaner (cleaner : Cleaner) (w : Wiring) : Wiring :=
  {| cleaners := cleaners w ++ [cleaner];
     eventChannelUnsafe := eventChannelUnsafe w |}.

(** A call on the bus. *)
Definition on_bus (f : EventChannel -> EventChannel) (w : Wiring) : Wiring :=
  {| cleaners := cleaners w; eventChannelUnsafe := f (eventChannelUnsafe w) |}.

Definition channel_start (uuid : string) : string :=
  String.append "/command/start/fromuser/" uuid.

Definition channel_complete (uuid : string) : string :=
  String.append "/command/complete/fromuser/" uuid.

Definition channel_clear (uuid : string) : string :=
  String.append "/terminal/clear/" uuid.

(** [hookIntoREPL()], for the instance [this] with [props.uuid = uuid]. *)
Definition hookIntoREPL (uuid : string) (this : nat) (w : Wiring) : Wiring :=
  let channel1 := channel_start uuid in
  let onExecStart := {| instance := this; handler := OnExecStartHandler |} in
  let w := push_cleaner (off channel1 onExecStart) w in
  let w := on_bus (on channel1 onExecStart) w in
  let channel2 := channel_complete uuid in
  let onExecEnd := {| instance := this; handler := OnExecEndHandler |} in
  let w := push_cleaner (off channel2 onExecEnd) w in
  on_bus (on channel2 onExecEnd) w.

Definition initEvents (uuid : string) (this : nat) (w : Wiring) : Wiring :=
  let w := hookIntoREPL uuid this w in
  let clear := {| instance := this; handler := ClearHandler |} in
  let w := on_bus (on (channel_clear uuid) clear) w in
  push_cleaner (off (channel_clear uuid) clear) w.

(** [uninitEvents()]: [this.cleaners.forEach(cleaner => cleaner())] *)
Definition uninitEvents (w : Wiring) : Wiring :=
  {| cleaners := cleaners w;
     eventChannelUnsafe :=
       fold_left (fun bus cleaner => cleaner bus) (cleaners w)
         (eventChannelUnsafe w) |}.

Definition componentWillUnmount (w : Wiring) : Wiring := uninitEvents w.

(** The wiring of a new instance: [cleaners] starts empty and the
    constructor calls [initEvents]. *)
Definition mount (uuid : string) (this : nat) (bus : EventChannel) : Wiring :=
  initEvents uuid this {| cleaners := []; eventChannelUnsafe := bus |}.

(** ** Rendering *)

Section Render.

Context {ScalarResponse : Type}.
Variable raises : ConstructorCall ScalarResponse -> option Exn.

(** The props that [render] gives to the child [Block] of one block:
    [key], [idx], [model], the removal bound to the index, and the [ref]
    callback. *)
Record BlockElement : Type := {
  key : Z;
  idx : Z;
  model : BlockModel ScalarResponse;
  willRemove : ScrollableTerminal ScalarResponse
               -> M (ScrollableTerminal ScalarResponse);
  ref : option Block -> ScrollableTerminal ScalarResponse
        -> ScrollableTerminal ScalarResponse
}.

(** [blocks.map((_, idx) => <Block .../>)], from index [i] on. *)
Fixpoint render_from (bs : list (BlockModel ScalarResponse)) (i : Z)
  : list BlockElement :=
  match bs with
  | [] => []
  | b :: rest =>
      {| key := i;
         idx := i;
         model := b;
         willRemove := fun this => willRemoveBlock raises this i;
         ref := fun c this =>
                  if isActive b then setActiveBlock this c else this |}
      :: render_from rest (i + 1)%Z
  end.

Definition render (this : ScrollableTerminal ScalarResponse)
  : list BlockElement :=
  render_from (blocks (state this)) 0%Z.

(** The [ref] callbacks of the rendered children, each called with the
    component of its child, first child first. *)
Fixpoint attach (els : list BlockElement) (components : list Block)
  (this : ScrollableTerminal ScalarResponse)
  : ScrollableTerminal ScalarResponse :=
  match els, components with
  | el :: els', c :: components' => attach els' components' (ref el (Some c) this)
  | _, _ => this
  end.

End Render.

Arguments BlockElement : clear implicits.

(** ** The table of namespaces (kubectl get namespaces) *)

(** [l.splice(start, deleteCount, ...items)], as the array it leaves: the
    start is taken as by [slice], and the count is kept within what follows
    the start. *)
Definition splice {A : Type} (l : list A) (start deleteCount : Z)
  (items : list A) : list A :=
  let len := JsArray.length l in
  let s := JsArray.clamp len start in
  let count := Z.min (Z.max deleteCount 0) (len - s) in
  firstn (Z.to_nat s) l ++ items ++ skipn (Z.to_nat (s + count)) l.

(** [/needle/.test(hay)] for a pattern without special characters: does
    [hay] contain [needle]? *)
Fixpoint includes (needle hay : string) : bool :=
  String.prefix needle hay
  || match hay with
     | EmptyString => false
     | String _ rest => includes needle rest
     end.

(** The string that [RegExp.prototype.test] is run on: an absent argument
    is converted to ["undefined"]. *)
Definition tested (s : option string) : string :=
  match s with
  | Some s => s
  | None => "undefined"
  end.

Module Namespace.

(** The members of [CellShould] that the transformer uses. *)
Inductive CellShould : Type :=
| HideWithSidecar
| HaveGreenBadge
| HaveYellowBadge
| HaveRedBadge
| HaveGrayBadge.

(** The part of a cell, a row and a table of [@kui-shell/core] that the
    transformer reads. *)
Record Cell : Type := {
  value : string;
  outerCSS : option string;
  css : option string
}.

Record Row : Type := { name : string; attributes : list Cell }.

Record Table : Type := { header : Row; body : list Row }.

(** A cell of a radio table: the name, or a value with its hints. *)
Inductive RadioTableCell : Type :=
| NameCell (name : string)
| HintedCell (value : string) (hints : list CellShould).

(** A row of a radio table. [onSelect], when present, is given by the
    command that it executes with [pexec]. *)
Record RadioTableRow : Type := {
  nameIdx : Z;
  cells : list RadioTableCell;
  onSelect : option string
}.

(** The radio table; a row of the body is [None] where the array holds
    [undefined]. *)
Record RadioTable : Type := {
  apiVersion : string;
  kind : string;
  title : string;
  defaultSelectedIdx : Z;
  radio_header : RadioTableRow;
  radio_body : list (option RadioTableRow)
}.

(** Align the table model of outerCSS and css to CellShould hints. *)
Definition hintsFor (outerCSS css : option string) : list CellShould :=
  let hints :=
    if includes "hide-with-sidecar" (tested outerCSS)
    then [HideWithSidecar] else [] in
  if includes "green-background" (tested css) then hints ++ [HaveGreenBadge]
  else if includes "yellow-background" (tested css) then hints ++ [HaveYellowBadge]
  else if includes "red-background" (tested css) then hints ++ [HaveRedBadge]
  else if includes "gray-background" (tested css) then hints ++ [HaveGrayBadge]
  else hints.

(** Convert old Table row model to new RadioTable row model. *)
Definition t2rt (row : Row) : RadioTableRow :=
  {| nameIdx := 0;
     cells :=
       NameCell (name row)
       :: map (fun c => HintedCell (value c) (hintsFor (outerCSS c) (css c)))
            (attributes row);
     onSelect := None |}.

Section AsRadioTable.

(** [radioTableCellToString] of [@kui-shell/core], taken as it is; [None]
    is the [undefined] that an index out of the cells gives. *)
Variable radioTableCellToString : option RadioTableCell -> string.

(** [Object.assign(rtRow, { onSelect: ... })]: the callback reads the cell
    at [nameIdx] and switches to that namespace. *)
Definition with_onSelect (rtRow : RadioTableRow) : RadioTableRow :=
  {| nameIdx := nameIdx rtRow;
     cells := cells rtRow;
     onSelect :=
       Some (String.append "namespace switch ns "
               (radioTableCellToString
                  (JsArray.get (cells rtRow) (nameIdx rtRow)))) |}.

(** [asRadioTable(args, { header, body })], given the namespace of the
    current context. *)
Definition asRadioTable (currentNamespace : string) (table : Table)
  : RadioTable :=
  let defaultSelectedIdx :=
    JsArray.findIndex (fun r => String.eqb (name r) currentNamespace)
      (body table) in
  let rows :=
    map (fun rtRow => Some (with_onSelect rtRow)) (map t2rt (body table)) in
  let rowIdxForDefaultNS :=
    JsArray.findIndex (fun r => String.eqb (name r) "default") (body table) in
  if negb (rowIdxForDefaultNS =? 0)%Z
     && negb (rowIdxForDefaultNS =? defaultSelectedIdx)%Z
     && (JsArray.length (body table) >? 2)%Z
  then
    let defaultRow :=
      match JsArray.get rows rowIdxForDefaultNS with
      | Some row => row
      | None => None
      end in
    let rows := splice rows rowIdxForDefaultNS 1 [] in
    let rows := splice rows 1 0 [defaultRow] in
    {| apiVersion := "kui-shell/v1";
       kind := "RadioTable";
       title := "Namespaces";
       defaultSelectedIdx :=
         if (defaultSelectedIdx <? rowIdxForDefaultNS)%Z
         then (defaultSelectedIdx + 1)%Z else defaultSelectedIdx;
       radio_header := t2rt (header table);
       radio_body := rows |}
  else
    {| apiVersion := "kui-shell/v1";
       kind := "RadioTable";
       title := "Namespaces";
       defaultSelectedIdx := defaultSelectedIdx;
       radio_header := t2rt (header table);
       radio_body := rows |}.

(** The row of the radio table made from a row of the table. *)
Definition radio_row (row : Row) : option RadioTableRow :=
  Some (with_onSelect (t2rt row)).

End AsRadioTable.

End Namespace.

(** A sample [radioTableCellToString]: the name, or the value of the cell. *)
Definition sample_cellToString (c : option Namespace.RadioTableCell) : string :=
  match c with
  | Some (Namespace.NameCell s) => s
  | Some (Namespace.HintedCell v _) => v
  | None => "undefined"
  end.

(** A row with a name and no attributes. *)
Definition named (n : string) : Namespace.Row :=
  {| Namespace.name := n; Namespace.attributes := [] |}.

(** * Properties *)

(** ** Arrays *)

Section JsArrayFacts.

Context {A : Type}.
Implicit Types (l pre post : list A) (p : A -> bool).

Lemma length_nonneg l : (0 <= JsArray.length l)%Z.
Proof. unfold JsArray.length. lia. Qed.

Lemma length_concat pre post :
  JsArray.length (pre ++ post) = (JsArray.length pre + JsArray.length post)%Z.
Proof. unfold JsArray.length. rewrite List.length_app. lia. Qed.

(** [l.slice(0, i)] of a sequence cut at [i] is the part before the cut. *)
Lemma slice_prefix pre post :
  JsArray.slice (pre ++ post) 0 (JsArray.length pre) = pre.
Proof.
  unfold JsArray.slice, JsArray.clamp.
  rewrite length_concat.
  pose proof (length_nonneg pre) as Hp.
  pose proof (length_nonneg post) as Hq.
  destruct (Z.ltb_spec (JsArray.length pre) 0) as [H | _]; [lia |].
  cbn [Z.ltb Z.compare].
  replace (Z.min 0 (JsArray.length pre + JsArray.length post)) with 0%Z by lia.
  replace (Z.min (JsArray.length pre) (JsArray.length pre + JsArray.length post))
    with (JsArray.length pre) by lia.
  cbn [Z.to_nat skipn]. rewrite Z.sub_0_r.
  unfold JsArray.length. rewrite Nat2Z.id.
  rewrite firstn_app, Nat.sub_diag, firstn_all. cbn [firstn].
  apply app_nil_r.
Qed.

(** [l.slice(i)] of a sequence cut at [i] is the part after the cut. *)
Lemma slice_from_suffix pre post :
  JsArray.slice_from (pre ++ post) (JsArray.length pre) = post.
Proof.
  unfold JsArray.slice_from, JsArray.slice, JsArray.clamp.
  rewrite length_concat.
  pose proof (length_nonneg pre) as Hp.
  pose proof (length_nonneg post) as Hq.
  destruct (Z.ltb_spec (JsArray.length pre) 0) as [H | _]; [lia |].
  destruct (Z.ltb_spec (JsArray.length pre + JsArray.length post) 0)
    as [H | _]; [lia |].
  replace (Z.min (JsArray.length pre) (JsArray.length pre + JsArray.length post))
    with (JsArray.length pre) by lia.
  rewrite Z.min_id.
  replace (JsArray.length pre + JsArray.length post - JsArray.length pre)%Z
    with (JsArray.length post) by lia.
  unfold JsArray.length. rewrite !Nat2Z.id.
  rewrite skipn_app, Nat.sub_diag, skipn_all. cbn [skipn app].
  apply firstn_all.
Qed.

Lemma slice_from_after pre x post :
  JsArray.slice_from (pre ++ x :: post) (JsArray.length pre + 1) = post.
Proof.
  replace (pre ++ x :: post) with ((pre ++ [x]) ++ post)
    by (rewrite <- app_assoc; reflexivity).
  replace (JsArray.length pre + 1)%Z with (JsArray.length (pre ++ [x])).
  - apply slice_from_suffix.
  - rewrite length_concat. reflexivity.
Qed.

(** [l.slice(0, l.length - 1)] drops the last element. *)
Lemma slice_but_last pre x :
  JsArray.slice (pre ++ [x]) 0 (JsArray.length (pre ++ [x]) - 1) = pre.
Proof.
  replace (JsArray.length (pre ++ [x]) - 1)%Z with (JsArray.length pre).
  - apply slice_prefix.
  - rewrite length_concat. unfold JsArray.length at 3. cbn. lia.
Qed.

Lemma get_at pre x post :
  JsArray.get (pre ++ x :: post) (JsArray.length pre) = Some x.
Proof.
  unfold JsArray.get.
  pose proof (length_nonneg pre) as Hp.
  destruct (Z.ltb_spec (JsArray.length pre) 0) as [H | _]; [lia |].
  unfold JsArray.length. rewrite Nat2Z.id.
  rewrite nth_error_app2 by lia. rewrite Nat.sub_diag. reflexivity.
Qed.

Lemma get_last pre x :
  JsArray.get (pre ++ [x]) (JsArray.length (pre ++ [x]) - 1) = Some x.
Proof.
  replace (JsArray.length (pre ++ [x]) - 1)%Z with (JsArray.length pre).
  - apply get_at.
  - rewrite length_concat. unfold JsArray.length at 3. cbn. lia.
Qed.

Lemma findIndex_from_shift p l i :
  JsArray.findIndex_from p l i =
  if (JsArray.findIndex_from p l 0 <? 0)%Z then (-1)%Z
  else (i + JsArray.findIndex_from p l 0)%Z.
Proof.
  revert i. induction l as [| x r IH]; intro i; cbn.
  - reflexivity.
  - destruct (p x).
    + cbn. lia.
    + rewrite (IH (i + 1)%Z), (IH 1%Z).
      destruct (Z.ltb_spec (JsArray.findIndex_from p r 0) 0) as [H | H].
      * reflexivity.
      * destruct (Z.ltb_spec (1 + JsArray.findIndex_from p r 0) 0); lia.
Qed.

Lemma findIndex_from_range p l :
  (-1 <= JsArray.findIndex_from p l 0 < JsArray.length l)%Z.
Proof.
  induction l as [| x r IH]; cbn.
  - unfold JsArray.length. cbn. lia.
  - destruct (p x).
    + unfold JsArray.length. cbn [List.length]. lia.
    + rewrite findIndex_from_shift.
      unfold JsArray.length in *. cbn [List.length].
      destruct (Z.ltb_spec (JsArray.findIndex_from p r 0) 0); lia.
Qed.

(** [findIndex] is [-1] when no element satisfies the predicate. *)
Lemma findIndex_none p l :
  forallb (fun x => negb (p x)) l = true -> JsArray.findIndex p l = (-1)%Z.
Proof.
  unfold JsArray.findIndex. generalize 0%Z.
  induction l as [| x r IH]; intros i H; cbn in *.
  - reflexivity.
  - apply andb_true_iff in H as [Hx Hr].
    apply negb_true_iff in Hx. rewrite Hx. apply IH, Hr.
Qed.

(** [findIndex] is the position of the first element that satisfies the
    predicate. *)
Lemma findIndex_first p pre x post :
  forallb (fun y => negb (p y)) pre = true -> p x = true ->
  JsArray.findIndex p (pre ++ x :: post) = JsArray.length pre.
Proof.
  unfold JsArray.findIndex, JsArray.length.
  replace (Z.of_nat (List.length pre))
    with (0 + Z.of_nat (List.length pre))%Z by lia.
  generalize 0%Z.
  induction pre as [| y r IH]; intros i H Hx; cbn [app JsArray.findIndex_from].
  - rewrite Hx. cbn. lia.
  - cbn in H. apply andb_true_iff in H as [Hy Hr].
    apply negb_true_iff in Hy. rewrite Hy.
    rewrite IH by assumption. cbn [List.length]. lia.
Qed.

(** Conversely, a non-negative [findIndex] cuts the sequence at the first
    element that satisfies the predicate. *)
Lemma findIndex_found p l :
  (JsArray.findIndex p l >= 0)%Z ->
  exists pre x post,
    l = pre ++ x :: post /\ forallb (fun y => negb (p y)) pre = true /\
    p x = true /\ JsArray.findIndex p l = JsArray.length pre.
Proof.
  induction l as [| y r IH]; intro H.
  - cbn in H. lia.
  - destruct (p y) eqn:Hy.
    + exists [], y, r. cbn. unfold JsArray.findIndex. cbn. rewrite Hy. auto.
    + unfold JsArray.findIndex in *. cbn in H. rewrite Hy in H.
      rewrite findIndex_from_shift in H.
      destruct (Z.ltb_spec (JsArray.findIndex_from p r 0) 0) as [Hn | Hn];
        [lia |].
      destruct IH as (pre & x & post & -> & Hpre & Hx & Hi); [lia |].
      exists (y :: pre), x, post. cbn. rewrite Hy. cbn.
      repeat split; try assumption.
      rewrite findIndex_from_shift. rewrite Hi.
      pose proof (length_nonneg pre).
      destruct (Z.ltb_spec (JsArray.length pre) 0); [lia |].
      unfold JsArray.length. cbn [List.length]. lia.
Qed.

(** [findIndex] never returns an index at which [l[i]] is [undefined]. *)
Lemma findIndex_get p l :
  (JsArray.findIndex p l >= 0)%Z ->
  exists x, JsArray.get l (JsArray.findIndex p l) = Some x /\ p x = true.
Proof.
  intro H. destruct (findIndex_found p l H) as (pre & x & post & -> & _ & Hx & Hi).
  exists x. rewrite Hi. split; [apply get_at | exact Hx].
Qed.

Lemma find_absent p l :
  forallb (fun x => negb (p x)) l = true -> JsArray.find p l = None.
Proof.
  unfold JsArray.find. induction l as [| x r IH]; cbn; intro H.
  - reflexivity.
  - apply andb_true_iff in H as [Hx Hr]. apply negb_true_iff in Hx.
    rewrite Hx. auto.
Qed.

Lemma find_present p pre x post :
  p x = true -> exists y, JsArray.find p (pre ++ x :: post) = Some y.
Proof.
  intro Hx. unfold JsArray.find. induction pre as [| z r IH]; cbn.
  - rewrite Hx. eauto.
  - destruct (p z); eauto.
Qed.

End JsArrayFacts.

(** ** The handlers *)

Section TerminalFacts.

Context {ScalarResponse : Type}.
Variable isWatchable : ScalarResponse -> bool.
Variable isPopup : bool.
Variable raises : ConstructorCall ScalarResponse -> option Exn.

Implicit Types (p : Props) (ab : option Block)
  (bs pre post earlier : list (BlockModel ScalarResponse))
  (x last : BlockModel ScalarResponse).

Local Open Scope string_scope.

Lemma terminal_eta (this : ScrollableTerminal ScalarResponse) :
  this = terminal (props this) (blocks (state this)) (_activeBlock this).
Proof. destruct this as [p [bs] ab]. reflexivity. Qed.

Lemma no_match_app execUUID pre post :
  forallb (fun b => negb (matches execUUID b)) (pre ++ post) =
  forallb (fun b => negb (matches execUUID b)) pre
  && forallb (fun b => negb (matches execUUID b)) post.
Proof. apply forallb_app. Qed.

(** [onExecEnd] when a Processing block carries the identifier: the first
    such block becomes Finished and an Active block is appended, unless a
    constructor throws, which is caught and logged. *)
Lemma onExecEnd_matched p ab pre x post response cancelled echo
  evaluatorOptions execOptions execUUID responseType :
  is_false echo = false ->
  forallb (fun b => negb (matches execUUID b)) pre = true ->
  matches execUUID x = true ->
  onExecEnd isWatchable raises (terminal p (pre ++ x :: post) ab)
    response cancelled echo evaluatorOptions execOptions execUUID responseType =
  let payload := stored isWatchable p response evaluatorOptions execOptions responseType in
  match raises (CallFinished x payload cancelled) with
  | Some e =>
      ([ConsoleError "error updating state" (message_of e)],
       inr (terminal p (pre ++ x :: post) ab))
  | None =>
      match raises (CallActive None) with
      | Some e =>
          ([ConsoleError "error updating state" (message_of e)],
           inr (terminal p (pre ++ x :: post) ab))
      | None =>
          ret (terminal p
                 (pre ++ FinishedBlock x payload cancelled :: post
                      ++ [ActiveBlock ""]) ab)
      end
  end.
Proof.
  intros Hecho Hpre Hx.
  unfold onExecEnd. rewrite Hecho.
  unfold setState. cbn [state blocks terminal props _activeBlock].
  rewrite (findIndex_first _ _ _ _ Hpre Hx).
  pose proof (length_nonneg pre) as Hlen.
  destruct (Z.geb_spec (JsArray.length pre) 0) as [_ | H]; [| lia].
  rewrite get_at.
  unfold matches in Hx. apply andb_true_iff in Hx as [Hproc _].
  rewrite Hproc.
  rewrite slice_prefix, slice_from_after.
  unfold Finished, Active, construct, stored, JsArray.concat.
  destruct (raises (CallFinished x _ cancelled)) as [e |]; cbn.
  - reflexivity.
  - destruct (raises (CallActive None)) as [e |]; cbn.
    + reflexivity.
    + rewrite <- !app_assoc. reflexivity.
Qed.

(** [onExecEnd] when no Processing block carries the identifier and the
    event is a cancellation: no handler surrounds the construction. *)
Lemma onExecEnd_bare_cancel p ab bs response echo
  evaluatorOptions execOptions execUUID responseType :
  is_false echo = false ->
  forallb (fun b => negb (matches execUUID b)) bs = true ->
  onExecEnd isWatchable raises (terminal p bs ab)
    response true echo evaluatorOptions execOptions execUUID responseType =
  let idx := (JsArray.length bs - 1)%Z in
  match raises (CallCancelled (JsArray.get bs idx)) with
  | Some e => throw e
  | None =>
      match raises (CallActive None) with
      | Some e => throw e
      | None =>
          ret (terminal p
                 (JsArray.slice bs 0 idx
                    ++ [CancelledBlock (JsArray.get bs idx); ActiveBlock ""]) ab)
      end
  end.
Proof.
  intros Hecho Hnone.
  unfold onExecEnd. rewrite Hecho.
  unfold setState. cbn [state blocks terminal props _activeBlock].
  rewrite (findIndex_none _ _ Hnone). cbn [Z.geb Z.compare].
  unfold Cancelled, Active, construct, JsArray.concat.
  destruct (raises (CallCancelled _)) as [e |]; cbn.
  - reflexivity.
  - destruct (raises (CallActive None)) as [e |]; cbn.
    + reflexivity.
    + rewrite <- app_assoc. reflexivity.
Qed.

(** [onExecEnd] when no Processing block carries the identifier and the
    event is not a cancellation. *)
Lemma onExecEnd_unmatched p ab bs response echo
  evaluatorOptions execOptions execUUID responseType :
  is_false echo = false ->
  forallb (fun b => negb (matches execUUID b)) bs = true ->
  onExecEnd isWatchable raises (terminal p bs ab)
    response false echo evaluatorOptions execOptions execUUID responseType =
  ([ConsoleError
      "invalid state: got a command completion event, but never got command start event"
      execUUID],
   inr (terminal p bs ab)).
Proof.
  intros Hecho Hnone.
  unfold onExecEnd. rewrite Hecho.
  unfold setState. cbn [state blocks terminal props _activeBlock].
  rewrite (findIndex_none _ _ Hnone). reflexivity.
Qed.

Lemma onExecStart_last p ab earlier last execUUID command echo :
  is_false echo = false ->
  onExecStart isPopup raises (terminal p (earlier ++ [last]) ab)
    execUUID command echo =
  match raises (CallProcessing (Some last) command execUUID) with
  | Some e =>
      (if isPopup && sidecarIsVisible p then [CloseSidecarCalled] else [],
       inl e)
  | None =>
      (if isPopup && sidecarIsVisible p then [CloseSidecarCalled] else [],
       inr (terminal p
              (earlier ++ [ProcessingBlock (Some last) command execUUID]) ab))
  end.
Proof.
  intro Hecho. unfold onExecStart. rewrite Hecho.
  unfold setState. cbn [state blocks terminal props _activeBlock].
  rewrite get_last, slice_but_last.
  unfold Processing, construct, JsArray.concat.
  destruct (isPopup && sidecarIsVisible p);
    destruct (raises (CallProcessing _ _ _)); reflexivity.
Qed.

Lemma clear_result p ab bs :
  clear raises (terminal p bs ab) =
  let capturedValue :=
    match ab with Some b => inputValue b | None => "" end in
  match raises (CallActive (Some capturedValue)) with
  | Some e => (if onClear p then [OnClearCalled] else [], inl e)
  | None =>
      (if onClear p then [OnClearCalled] else [],
       inr (terminal p [ActiveBlock capturedValue] ab))
  end.
Proof.
  unfold clear, setState, Active, construct.
  cbn [state blocks terminal props _activeBlock].
  destruct (onClear p); destruct (raises (CallActive _)); reflexivity.
Qed.

End TerminalFacts.

(** ** The shape of the sequence along a run *)

Section Shape.

Context {ScalarResponse : Type}.
Variable isWatchable : ScalarResponse -> bool.
Variable isPopup : bool.
Variable raises : ConstructorCall ScalarResponse -> option Exn.

Implicit Types (p : Props) (ab : option Block)
  (bs pre post earlier : list (BlockModel ScalarResponse))
  (x last : BlockModel ScalarResponse).

Lemma open_last_snoc earlier last :
  open_last (earlier ++ [last]) =
  forallb isSettled earlier && (isActive last || isProcessing last).
Proof.
  induction earlier as [| b r IH].
  - reflexivity.
  - change ((b :: r) ++ [last]) with (b :: (r ++ [last])).
    cbn [forallb]. rewrite <- andb_assoc, <- IH.
    destruct r; reflexivity.
Qed.

Lemma open_last_split bs :
  open_last bs = true ->
  exists earlier last,
    bs = earlier ++ [last] /\ forallb isSettled earlier = true /\
    (isActive last || isProcessing last) = true.
Proof.
  intro H. destruct (exists_last (l := bs)) as (earlier & last & ->).
  - intros ->. discriminate H.
  - rewrite open_last_snoc in H. apply andb_true_iff in H as [He Hl].
    exists earlier, last. auto.
Qed.

Lemma count_app (q : BlockModel ScalarResponse -> bool) pre post :
  count q (pre ++ post) = count q pre + count q post.
Proof. unfold count. rewrite filter_app, List.length_app. reflexivity. Qed.

Lemma count_settled earlier :
  forallb isSettled earlier = true ->
  count isActive earlier = 0 /\ count isProcessing earlier = 0.
Proof.
  unfold count. induction earlier as [| b r IH]; cbn; intro H.
  - auto.
  - apply andb_true_iff in H as [Hb Hr]. destruct (IH Hr) as [Ha Hp].
    unfold isSettled in Hb. apply negb_true_iff, orb_false_iff in Hb as [-> ->].
    auto.
Qed.

(** In a sequence of that shape exactly one block is Active or
    Processing. *)
Lemma open_last_count bs :
  open_last bs = true -> count isActive bs + count isProcessing bs = 1.
Proof.
  intro H. destruct (open_last_split bs H) as (earlier & last & -> & He & Hl).
  rewrite !count_app. destruct (count_settled earlier He) as [-> ->].
  unfold count. cbn. destruct last; cbn in *; try discriminate; reflexivity.
Qed.

(** In a sequence of that shape the number of Active blocks is read off
    the last block: one when it is Active, none when it is Processing. *)
Lemma open_last_active_count bs :
  open_last bs = true ->
  exists earlier last,
    bs = earlier ++ [last]
    /\ forallb isSettled earlier = true
    /\ ((isActive last = true /\ count isActive bs = 1)
        \/ (isProcessing last = true /\ count isActive bs = 0)).
Proof.
  intro H. destruct (open_last_split bs H) as (earlier & last & -> & He & Hl).
  exists earlier, last. split; [reflexivity |]. split; [exact He |].
  rewrite count_app. destruct (count_settled earlier He) as [-> _].
  destruct last; cbn in Hl; try discriminate Hl.
  - left. split; reflexivity.
  - right. split; reflexivity.
Qed.

Lemma settled_no_match execUUID earlier :
  forallb isSettled earlier = true ->
  forallb (fun b => negb (matches execUUID b)) earlier = true.
Proof.
  induction earlier as [| b r IH]; cbn; intro H.
  - reflexivity.
  - apply andb_true_iff in H as [Hb Hr]. rewrite (IH Hr), andb_true_r.
    unfold isSettled in Hb. apply negb_true_iff, orb_false_iff in Hb as [_ Hp].
    unfold matches. rewrite Hp. reflexivity.
Qed.

Lemma findIndex_negative {A : Type} (q : A -> bool) (l : list A) :
  (JsArray.findIndex q l >=? 0)%Z = false ->
  forallb (fun y => negb (q y)) l = true.
Proof.
  unfold JsArray.findIndex.
  induction l as [| y r IH]; cbn; intro H.
  - reflexivity.
  - destruct (q y); cbn.
    + discriminate H.
    + apply IH. rewrite findIndex_from_shift in H.
      destruct (Z.ltb_spec (JsArray.findIndex_from q r 0) 0) as [Hn | Hn].
      * destruct (Z.geb_spec (JsArray.findIndex_from q r 0) 0); [lia | easy].
      * destruct (Z.geb_spec (1 + JsArray.findIndex_from q r 0) 0);
          [discriminate | lia].
Qed.

(** The shape is kept by every event, whether its handler returns or
    throws. *)
Lemma dispatch_open_last (this : ScrollableTerminal ScalarResponse) ev :
  open_last (blocks (state this)) = true ->
  open_last (blocks (state (dispatch isWatchable isPopup raises this ev))) = true.
Proof.
  intro Hinv.
  destruct (open_last_split _ Hinv) as (earlier & last & Hbs & He & Hl).
  rewrite (terminal_eta this) in *. cbn [state blocks terminal] in Hbs, Hinv.
  generalize dependent (blocks (state this)). intros bs Hinv ->.
  generalize (props this) (_activeBlock this). intros p ab.
  unfold dispatch.
  destruct ev as [execUUID command echo
                 | response cancelled echo eo xo execUUID responseType
                 | | c]; cbn [handle].
  - (* start *)
    destruct (is_false echo) eqn:Hecho.
    + unfold onExecStart. rewrite Hecho. exact Hinv.
    + rewrite onExecStart_last by exact Hecho.
      destruct (raises (CallProcessing _ _ _)); cbn; [exact Hinv |].
      rewrite open_last_snoc, He. reflexivity.
  - (* complete *)
    destruct (is_false echo) eqn:Hecho.
    + unfold onExecEnd. rewrite Hecho. exact Hinv.
    + destruct (matches execUUID last) eqn:Hlast.
      * rewrite (onExecEnd_matched isWatchable raises p ab earlier last []);
          auto using settled_no_match.
        cbn zeta.
        destruct (raises (CallFinished _ _ _)); cbn; [exact Hinv |].
        destruct (raises (CallActive None)); cbn; [exact Hinv |].
        change (earlier ++ ?f :: [?a]) with (earlier ++ [f] ++ [a]).
        rewrite app_assoc, open_last_snoc, forallb_app, He. reflexivity.
      * assert (Hnone : forallb (fun b => negb (matches execUUID b))
                          (earlier ++ [last]) = true).
        { rewrite forallb_app, (settled_no_match _ _ He). cbn.
          rewrite Hlast. reflexivity. }
        destruct cancelled.
        -- rewrite onExecEnd_bare_cancel by assumption. cbn zeta.
           rewrite get_last, slice_but_last.
           destruct (raises (CallCancelled _)); cbn; [exact Hinv |].
           destruct (raises (CallActive None)); cbn; [exact Hinv |].
           change (earlier ++ [?f; ?a]) with (earlier ++ [f] ++ [a]).
           rewrite app_assoc, open_last_snoc, forallb_app, He. reflexivity.
        -- rewrite onExecEnd_unmatched by assumption. exact Hinv.
  - (* clear *)
    rewrite clear_result. cbn zeta.
    destruct (raises (CallActive _)); cbn; [exact Hinv | reflexivity].
  - (* render *)
    exact Hinv.
Qed.

Lemma observations_open_last evs :
  forall this : ScrollableTerminal ScalarResponse,
    open_last (blocks (state this)) = true ->
    Forall (fun t => open_last (blocks (state t)) = true)
      (observations isWatchable isPopup raises this evs).
Proof.
  induction evs as [| ev rest IH]; intros this H; cbn.
  - constructor.
  - constructor.
    + apply dispatch_open_last, H.
    + apply IH, dispatch_open_last, H.
Qed.

End Shape.

(** ** Removing a block *)

Section Removal.

Context {ScalarResponse : Type}.
Variable raises : ConstructorCall ScalarResponse -> option Exn.

Implicit Types (p : Props) (ab : option Block)
  (pre post : list (BlockModel ScalarResponse))
  (x : BlockModel ScalarResponse).

Local Open Scope string_scope.

(** [willRemoveBlock] at a position of the sequence: the block there is
    removed, and an Active block is appended when the sequence it was
    given holds none. *)
Lemma willRemoveBlock_at p ab pre x post :
  willRemoveBlock raises (terminal p (pre ++ x :: post) ab) (JsArray.length pre) =
  match JsArray.find isActive (pre ++ x :: post) with
  | Some _ => ret (terminal p (pre ++ post) ab)
  | None =>
      match raises (CallActive None) with
      | Some e => throw e
      | None => ret (terminal p (pre ++ post ++ [ActiveBlock ""]) ab)
      end
  end.
Proof.
  unfold willRemoveBlock, setState.
  cbn [state blocks terminal props _activeBlock].
  rewrite slice_prefix, slice_from_after.
  unfold JsArray.concat, Active, construct.
  destruct (JsArray.find isActive (pre ++ x :: post)); cbn.
  - rewrite app_nil_r. reflexivity.
  - destruct (raises (CallActive None)); cbn.
    + reflexivity.
    + rewrite <- app_assoc. reflexivity.
Qed.

(** Removing a block from a sequence in which another block is Active
    leaves every other block, the Active one included, as it was. *)
Lemma willRemoveBlock_historical p ab pre x post :
  existsb isActive (pre ++ post) = true ->
  willRemoveBlock raises (terminal p (pre ++ x :: post) ab) (JsArray.length pre) =
  ret (terminal p (pre ++ post) ab).
Proof.
  intro Hex. rewrite willRemoveBlock_at.
  destruct (JsArray.find isActive (pre ++ x :: post)) eqn:Hf; [reflexivity |].
  exfalso. unfold JsArray.find in Hf.
  apply existsb_exists in Hex as (y & Hin & Hy).
  rewrite (List.find_none _ _ Hf y) in Hy; [discriminate |].
  apply in_app_iff in Hin as [Hin | Hin]; apply in_app_iff; cbn; auto.
Qed.

End Removal.

(** ** Supporting facts for the statements below *)

Section Support.

Context {ScalarResponse : Type}.
Variable isWatchable : ScalarResponse -> bool.
Variable raises : ConstructorCall ScalarResponse -> option Exn.

Implicit Types (p : Props) (ab : option Block)
  (pre post : list (BlockModel ScalarResponse))
  (x : BlockModel ScalarResponse).

Local Open Scope string_scope.

Lemma constructor_result p :
  constructor raises p =
  match raises (CallActive None) with
  | Some e => throw e
  | None => ret (fresh p)
  end.
Proof.
  unfold constructor, Active, construct.
  destruct (raises (CallActive None)); reflexivity.
Qed.

Lemma is_Terminal_iff (o : ViewOptions) :
  is_Terminal o = true <-> alwaysViewIn o = Some "Terminal".
Proof.
  unfold is_Terminal. destruct (alwaysViewIn o) as [s |].
  - rewrite String.eqb_eq. split; congruence.
  - split; discriminate.
Qed.

(** The policy of [onExecEnd], in words: the watch pane is disabled, or
    the response is not watchable, or one of the two per-call options
    asks for the terminal. *)
Lemma showInTerminal_iff p response (eo : CommandOptions) (xo : ExecOptions) :
  showInTerminal isWatchable p response eo xo = true <->
  (enableWatchPane (config p) = false \/ isWatchable response = false \/
   alwaysViewIn eo = Some "Terminal" \/ alwaysViewIn xo = Some "Terminal").
Proof.
  unfold showInTerminal.
  rewrite <- !is_Terminal_iff.
  destruct (enableWatchPane (config p)), (isWatchable response),
    (is_Terminal eo), (is_Terminal xo); cbn; intuition discriminate.
Qed.

Lemma stored_response_iff p response (eo : CommandOptions) (xo : ExecOptions)
  responseType :
  stored isWatchable p response eo xo responseType = StructuredResponse response
  <-> (responseType = "ScalarResponse" /\
       showInTerminal isWatchable p response eo xo = true).
Proof.
  unfold stored. rewrite <- String.eqb_eq, <- andb_true_iff.
  destruct (_ && _); split; intro H; try reflexivity; discriminate.
Qed.

Lemma stored_true_iff p response (eo : CommandOptions) (xo : ExecOptions)
  responseType :
  stored isWatchable p response eo xo responseType = PlainTrue
  <-> ~ (responseType = "ScalarResponse" /\
         showInTerminal isWatchable p response eo xo = true).
Proof.
  rewrite <- stored_response_iff. unfold stored.
  destruct (_ && _); split; intro H; try reflexivity; try discriminate.
  exfalso. apply H. reflexivity.
Qed.

(** The guarded branch of [onExecEnd]: a throwing [Finished] is caught,
    logged, and the terminal is left as it was. *)
Lemma matched_completion_exception_is_caught p ab pre x post response
  cancelled echo (eo : CommandOptions) (xo : ExecOptions) execUUID
  responseType e :
  is_false echo = false ->
  forallb (fun b => negb (matches execUUID b)) pre = true ->
  matches execUUID x = true ->
  raises (CallFinished x (stored isWatchable p response eo xo responseType)
            cancelled) = Some e ->
  onExecEnd isWatchable raises (terminal p (pre ++ x :: post) ab)
    response cancelled echo eo xo execUUID responseType =
  ([ConsoleError "error updating state" (message_of e)],
   inr (terminal p (pre ++ x :: post) ab)).
Proof.
  intros Hecho Hpre Hx He.
  rewrite onExecEnd_matched by assumption. cbn zeta. rewrite He. reflexivity.
Qed.

End Support.

(** ** Sample evaluations *)

Example slice_negative_end : JsArray.slice [1; 2; 3] 0 (-1) = [1; 2].
Proof. reflexivity. Qed.

Example slice_from_beyond_end : JsArray.slice_from [1; 2; 3] 5 = [].
Proof. reflexivity. Qed.

Example get_negative_index : JsArray.get [1; 2; 3] (-1) = None.
Proof. reflexivity. Qed.

Example findIndex_second : JsArray.findIndex (Nat.eqb 2) [1; 2; 3; 2] = 1%Z.
Proof. reflexivity. Qed.

Example findIndex_absent : JsArray.findIndex (Nat.eqb 7) [1; 2; 3] = (-1)%Z.
Proof. reflexivity. Qed.

(** A command typed, started and completed on a fresh terminal. *)
Example run_one_command :
  blocks (state (run text_isWatchable false never_raises (fresh plain_props)
    [Rendered (Some {| inputValue := "ls"%string |});
     CommandStart "e1" "ls" (Some true);
     CommandComplete "ok"%string false (Some true)
       {| alwaysViewIn := None |} {| alwaysViewIn := None |}
       "e1" "ScalarResponse"])) =
  [FinishedBlock (ProcessingBlock (Some (ActiveBlock "")) "ls" "e1")
     (StructuredResponse "ok"%string) false;
   ActiveBlock ""].
Proof. reflexivity. Qed.

(** A watchable response with the watch pane enabled and no override is
    stored as a plain [true]. *)
Example run_watch_command :
  blocks (state (run text_isWatchable false never_raises (fresh watch_props)
    [CommandStart "e1" "get pods -w" None;
     CommandComplete "watch"%string false None
       {| alwaysViewIn := None |} {| alwaysViewIn := None |}
       "e1" "ScalarResponse"])) =
  [FinishedBlock (ProcessingBlock (Some (ActiveBlock "")) "get pods -w" "e1")
     PlainTrue false;
   ActiveBlock ""].
Proof. reflexivity. Qed.

(** Removing the prompt of a fresh terminal, then a cancellation: the
    cancelled branch of [onExecEnd] reads [blocks[-1]], which is
    [undefined]. *)
Example cancel_on_empty_sequence :
  (t <- willRemoveBlock never_raises (fresh plain_props) 0 ;;
   onExecEnd text_isWatchable never_raises t ""%string true (Some true)
     {| alwaysViewIn := None |} {| alwaysViewIn := None |}
     "e7" "ScalarResponse")%js =
  ret (terminal plain_props [CancelledBlock None; ActiveBlock ""] None).
Proof. reflexivity. Qed.

(** The same cancellation when [Cancelled] throws: the exception leaves the
    handler. *)
Example cancel_throws :
  thrown (onExecEnd text_isWatchable Cancelled_throws (fresh plain_props)
            ""%string true (Some true)
            {| alwaysViewIn := None |} {| alwaysViewIn := None |}
            "e7" "ScalarResponse") = Some (Thrown "TypeError").
Proof. reflexivity. Qed.

(** A removal while a command runs appends a prompt after the Processing
    block. *)
Example remove_while_processing :
  returned (willRemoveBlock (ScalarResponse := string) never_raises
    (terminal plain_props
       [CancelledBlock None; ProcessingBlock None "sleep 10" "e1"] None) 0) =
  Some (terminal plain_props
          [ProcessingBlock None "sleep 10" "e1"; ActiveBlock ""] None).
Proof. reflexivity. Qed.

(** ** The component against its description *)

Local Open Scope string_scope.
Local Open Scope list_scope.

(** C1. [willRemoveBlock] decides whether to append an Active block on the
    sequence it is given, before the removal: removing the Active block
    itself appends nothing, so the sequence is left without an Active
    block. On a fresh terminal the result is the empty sequence, where the
    description asks for a new Active block. *)
Theorem willRemoveBlock_consults_original_sequence :
  forall (ScalarResponse : Type)
         (raises : ConstructorCall ScalarResponse -> option Exn)
         (p : Props) (ab : option Block)
         (pre post : list (BlockModel ScalarResponse)) (v : string),
    willRemoveBlock raises (terminal p (pre ++ ActiveBlock v :: post) ab)
      (JsArray.length pre) = ret (terminal p (pre ++ post) ab)
    /\ willRemoveBlock raises (fresh p) 0 = ret (terminal p [] None).
Proof.
  intros SR raises p ab pre post v.
  assert (H : forall ab' pre' post',
             willRemoveBlock raises
               (terminal p (pre' ++ ActiveBlock v :: post') ab')
               (JsArray.length pre') = ret (terminal p (pre' ++ post') ab')).
  { intros ab' pre' post'. rewrite willRemoveBlock_at.
    destruct (find_present isActive pre' (ActiveBlock v) post' eq_refl) as [y ->].
    reflexivity. }
  split.
  - apply H.
  - reflexivity.
Qed.

(** C2, as the component has it. Along every run of start, complete and
    clear events (and of updates of the active-block reference) from a fresh
    terminal, at the start and after each event, the sequence is not empty,
    every block but the last is neither Active nor Processing and the last
    block is Active or Processing. Hence exactly one block is Active or
    Processing, and at most one is Active: exactly one when the last block
    is Active, none when the last block is Processing. *)
Theorem open_block_is_last_along_run :
  forall (ScalarResponse : Type) (isWatchable : ScalarResponse -> bool)
         (isPopup : bool)
         (raises : ConstructorCall ScalarResponse -> option Exn)
         (p : Props) (evs : list (Event ScalarResponse)),
    Forall (fun t =>
              open_last (blocks (state t)) = true
              /\ count isActive (blocks (state t))
                 + count isProcessing (blocks (state t)) = 1
              /\ count isActive (blocks (state t)) <= 1
              /\ exists earlier last,
                   blocks (state t) = earlier ++ [last]
                   /\ forallb isSettled earlier = true
                   /\ ((isActive last = true
                        /\ count isActive (blocks (state t)) = 1)
                       \/ (isProcessing last = true
                           /\ count isActive (blocks (state t)) = 0)))
      (fresh p :: observations isWatchable isPopup raises (fresh p) evs).
Proof.
  intros SR isWatchable isPopup raises p evs.
  assert (H : Forall (fun t => open_last (blocks (state t)) = true)
                (fresh p :: observations isWatchable isPopup raises (fresh p) evs)).
  { constructor; [reflexivity |]. apply observations_open_last. reflexivity. }
  eapply Forall_impl; [| exact H].
  intros t Ht. pose proof (open_last_count _ Ht) as Hc.
  split; [exact Ht |]. split; [exact Hc |]. split; [lia |].
  apply open_last_active_count. exact Ht.
Qed.

(** C2, as written, fails: after an echoing start event on a fresh terminal
    the only block is Processing, and no block is Active. *)
Lemma single_active_fails_after_start :
  ~ (forall evs : list (Event string),
       Forall (fun t => count isActive (blocks (state t)) = 1)
         (observations text_isWatchable false never_raises
            (fresh plain_props) evs)).
Proof.
  intro H.
  specialize (H [CommandStart "e1" "ls" (Some true)]).
  inversion H as [| t ts Ht _]. discriminate Ht.
Qed.

(** C3. With two Processing blocks of distinct identifiers [A] and [B], in
    either order and with any blocks around them, a completion event for [B]
    whose echo is not false turns the block of [B] into Finished, leaves
    every other block, the one of [A] included, as it is, and appends a new
    Active block. The block is found by its identifier: no block before it
    carries [B] as a Processing block. *)
Theorem completion_matches_by_identifier :
  forall (ScalarResponse : Type) (isWatchable : ScalarResponse -> bool)
         (p : Props) (ab : option Block)
         (l1 l2 l3 : list (BlockModel ScalarResponse))
         (prevA prevB : option (BlockModel ScalarResponse))
         (commandA commandB A B : string)
         (response : ScalarResponse) (cancelled : bool) (echo : option bool)
         (evaluatorOptions : CommandOptions) (execOptions : ExecOptions)
         (responseType : string),
    A <> B ->
    is_false echo = false ->
    forallb (fun b => negb (matches B b)) (l1 ++ l2) = true ->
    onExecEnd isWatchable never_raises
      (terminal p (l1 ++ ProcessingBlock prevA commandA A
                      :: l2 ++ ProcessingBlock prevB commandB B :: l3) ab)
      response cancelled echo evaluatorOptions execOptions B responseType =
    ret (terminal p
           (l1 ++ ProcessingBlock prevA commandA A
               :: l2 ++ FinishedBlock (ProcessingBlock prevB commandB B)
                          (stored isWatchable p response evaluatorOptions
                             execOptions responseType) cancelled
               :: l3 ++ [ActiveBlock ""]) ab)
    /\
    onExecEnd isWatchable never_raises
      (terminal p (l1 ++ ProcessingBlock prevB commandB B
                      :: l2 ++ ProcessingBlock prevA commandA A :: l3) ab)
      response cancelled echo evaluatorOptions execOptions B responseType =
    ret (terminal p
           (l1 ++ FinishedBlock (ProcessingBlock prevB commandB B)
                    (stored isWatchable p response evaluatorOptions
                       execOptions responseType) cancelled
               :: l2 ++ ProcessingBlock prevA commandA A
               :: l3 ++ [ActiveBlock ""]) ab).
Proof.
  intros SR isWatchable p ab l1 l2 l3 prevA prevB commandA commandB A B
    response cancelled echo eo xo responseType HAB Hecho Hnone.
  rewrite forallb_app in Hnone. apply andb_true_iff in Hnone as [H1 H2].
  assert (HB : matches B (ProcessingBlock prevB commandB B) = true).
  { unfold matches, execUUID_is. cbn. apply String.eqb_refl. }
  assert (HA : matches B (ProcessingBlock prevA commandA A) = false).
  { unfold matches, execUUID_is. cbn. apply String.eqb_neq. exact HAB. }
  split.
  - replace (l1 ++ ProcessingBlock prevA commandA A
                :: l2 ++ ProcessingBlock prevB commandB B :: l3)
      with ((l1 ++ ProcessingBlock prevA commandA A :: l2)
              ++ ProcessingBlock prevB commandB B :: l3)
      by (rewrite <- app_assoc; reflexivity).
    rewrite (onExecEnd_matched isWatchable never_raises); auto.
    + cbn. rewrite <- app_assoc. reflexivity.
    + rewrite forallb_app. cbn [forallb]. rewrite H1, H2, HA. reflexivity.
  - rewrite (onExecEnd_matched isWatchable never_raises); auto.
    cbn. rewrite <- !app_assoc. reflexivity.
Qed.

Lemma completion_matches_by_identifier_witness :
  onExecEnd text_isWatchable never_raises
    (terminal plain_props
       ([FinishedBlock (ProcessingBlock None "pwd" "e0") PlainTrue false]
          ++ ProcessingBlock None "sleep 10" "A"
          :: [CancelledBlock None] ++ ProcessingBlock None "ls" "B"
          :: [ActiveBlock "x"]) None)
    "ok" false (Some true) {| alwaysViewIn := None |} {| alwaysViewIn := None |}
    "B" "ScalarResponse" =
  ret (terminal plain_props
         [FinishedBlock (ProcessingBlock None "pwd" "e0") PlainTrue false;
          ProcessingBlock None "sleep 10" "A";
          CancelledBlock None;
          FinishedBlock (ProcessingBlock None "ls" "B")
            (StructuredResponse "ok") false;
          ActiveBlock "x"; ActiveBlock ""] None).
Proof.
  refine (proj1 (completion_matches_by_identifier string text_isWatchable
            plain_props None
            [FinishedBlock (ProcessingBlock None "pwd" "e0") PlainTrue false]
            [CancelledBlock None] [ActiveBlock "x"] None None
            "sleep 10" "ls" "A" "B" "ok" false (Some true)
            {| alwaysViewIn := None |} {| alwaysViewIn := None |}
            "ScalarResponse" _ _ _)).
  - discriminate.
  - reflexivity.
  - reflexivity.
Defined.

(** C4. A completion event whose identifier no Processing block carries,
    which is not a cancellation and whose echo is not false, leaves the
    terminal as it is: the handler reports the condition with
    [console.error] and returns. *)
Theorem unmatched_completion_is_inert :
  forall (ScalarResponse : Type) (isWatchable : ScalarResponse -> bool)
         (raises : ConstructorCall ScalarResponse -> option Exn)
         (p : Props) (ab : option Block)
         (bs : list (BlockModel ScalarResponse))
         (response : ScalarResponse) (echo : option bool)
         (evaluatorOptions : CommandOptions) (execOptions : ExecOptions)
         (execUUID responseType : string),
    is_false echo = false ->
    forallb (fun b => negb (matches execUUID b)) bs = true ->
    onExecEnd isWatchable raises (terminal p bs ab)
      response false echo evaluatorOptions execOptions execUUID responseType =
    ([ConsoleError
        "invalid state: got a command completion event, but never got command start event"
        execUUID],
     inr (terminal p bs ab)).
Proof.
  intros. apply onExecEnd_unmatched; assumption.
Qed.

Lemma unmatched_completion_is_inert_witness :
  onExecEnd text_isWatchable never_raises
    (terminal plain_props
       [FinishedBlock (ProcessingBlock None "pwd" "e0") PlainTrue false;
        ProcessingBlock (Some (ActiveBlock "")) "ls" "e1"] None)
    "ok" false None {| alwaysViewIn := None |} {| alwaysViewIn := None |}
    "e7" "ScalarResponse" =
  ([ConsoleError
      "invalid state: got a command completion event, but never got command start event"
      "e7"],
   inr (terminal plain_props
          [FinishedBlock (ProcessingBlock None "pwd" "e0") PlainTrue false;
           ProcessingBlock (Some (ActiveBlock "")) "ls" "e1"] None)).
Proof.
  apply (unmatched_completion_is_inert string text_isWatchable never_raises
           plain_props None
           [FinishedBlock (ProcessingBlock None "pwd" "e0") PlainTrue false;
            ProcessingBlock (Some (ActiveBlock "")) "ls" "e1"]
           "ok" None {| alwaysViewIn := None |} {| alwaysViewIn := None |}
           "e7" "ScalarResponse").
  - reflexivity.
  - reflexivity.
Defined.

(** C5. A cancellation whose identifier no Processing block carries, and
    whose echo is not false, replaces the last block of the sequence with
    [Cancelled(lastBlock)], keeps every earlier block, and appends a new
    Active block. *)
Theorem bare_cancellation_replaces_last :
  forall (ScalarResponse : Type) (isWatchable : ScalarResponse -> bool)
         (p : Props) (ab : option Block)
         (earlier : list (BlockModel ScalarResponse))
         (last : BlockModel ScalarResponse)
         (response : ScalarResponse) (echo : option bool)
         (evaluatorOptions : CommandOptions) (execOptions : ExecOptions)
         (execUUID responseType : string),
    is_false echo = false ->
    forallb (fun b => negb (matches execUUID b)) (earlier ++ [last]) = true ->
    onExecEnd isWatchable never_raises (terminal p (earlier ++ [last]) ab)
      response true echo evaluatorOptions execOptions execUUID responseType =
    ret (terminal p
           (earlier ++ [CancelledBlock (Some last); ActiveBlock ""]) ab).
Proof.
  intros SR isWatchable p ab earlier last response echo eo xo execUUID
    responseType Hecho Hnone.
  rewrite onExecEnd_bare_cancel by assumption.
  cbn. rewrite get_last, slice_but_last. reflexivity.
Qed.

Lemma bare_cancellation_replaces_last_witness :
  onExecEnd text_isWatchable never_raises
    (terminal plain_props
       ([FinishedBlock (ProcessingBlock None "pwd" "e0") PlainTrue false]
          ++ [ActiveBlock "ki"]) None)
    "" true (Some true) {| alwaysViewIn := None |} {| alwaysViewIn := None |}
    "e7" "ScalarResponse" =
  ret (terminal plain_props
         [FinishedBlock (ProcessingBlock None "pwd" "e0") PlainTrue false;
          CancelledBlock (Some (ActiveBlock "ki")); ActiveBlock ""] None).
Proof.
  apply (bare_cancellation_replaces_last string text_isWatchable plain_props
           None
           [FinishedBlock (ProcessingBlock None "pwd" "e0") PlainTrue false]
           (ActiveBlock "ki") "" (Some true)
           {| alwaysViewIn := None |} {| alwaysViewIn := None |}
           "e7" "ScalarResponse").
  - reflexivity.
  - reflexivity.
Defined.

(** C6. The description asks that an exception raised while the replacement
    sequence is built be caught in every branch of [onExecEnd]. The branch
    of a cancellation that matches no Processing block has no handler: when
    [Cancelled] throws there, [onExecEnd] throws the same exception, logs
    nothing, and the event dispatcher receives it. (The branch of a matched
    completion does catch, see [matched_completion_exception_is_caught].) *)
Theorem bare_cancellation_exception_escapes :
  forall (ScalarResponse : Type) (isWatchable : ScalarResponse -> bool)
         (raises : ConstructorCall ScalarResponse -> option Exn)
         (p : Props) (ab : option Block)
         (bs : list (BlockModel ScalarResponse))
         (response : ScalarResponse) (echo : option bool)
         (evaluatorOptions : CommandOptions) (execOptions : ExecOptions)
         (execUUID responseType : string) (e : Exn),
    is_false echo = false ->
    forallb (fun b => negb (matches execUUID b)) bs = true ->
    raises (CallCancelled (JsArray.get bs (JsArray.length bs - 1))) = Some e ->
    onExecEnd isWatchable raises (terminal p bs ab)
      response true echo evaluatorOptions execOptions execUUID responseType =
    throw e.
Proof.
  intros SR isWatchable raises p ab bs response echo eo xo execUUID
    responseType e Hecho Hnone He.
  rewrite onExecEnd_bare_cancel by assumption.
  cbn zeta. rewrite He. reflexivity.
Qed.

Lemma bare_cancellation_exception_escapes_witness :
  onExecEnd text_isWatchable Cancelled_throws (fresh plain_props)
    "" true (Some true) {| alwaysViewIn := None |} {| alwaysViewIn := None |}
    "e7" "ScalarResponse" =
  throw (Thrown "TypeError").
Proof.
  apply (bare_cancellation_exception_escapes string text_isWatchable
           Cancelled_throws plain_props None [ActiveBlock ""]
           "" (Some true) {| alwaysViewIn := None |} {| alwaysViewIn := None |}
           "e7" "ScalarResponse" (Thrown "TypeError")).
  - reflexivity.
  - reflexivity.
  - reflexivity.
Defined.



(** C8. A start event or a completion event whose echo flag is [false] is a
    no-op: the handler returns the terminal it was given, calls nothing and
    builds no block. *)
Theorem echo_false_is_noop :
  forall (ScalarResponse : Type) (isWatchable : ScalarResponse -> bool)
         (isPopup : bool)
         (raises : ConstructorCall ScalarResponse -> option Exn)
         (this : ScrollableTerminal ScalarResponse)
         (execUUID command responseType : string)
         (response : ScalarResponse) (cancelled : bool)
         (evaluatorOptions : CommandOptions) (execOptions : ExecOptions),
    onExecStart isPopup raises this execUUID command (Some false) = ret this
    /\
    onExecEnd isWatchable raises this response cancelled (Some false)
      evaluatorOptions execOptions execUUID responseType = ret this.
Proof.
  intros. split; reflexivity.
Qed.

(** C9. When [onExecEnd] finds the Processing block of the identifier, the
    Finished block it builds stores the response exactly when the response
    type is ['ScalarResponse'] and the result is to be shown in the
    terminal, that is, the watch pane is disabled, or the response is not
    watchable, or one of the two per-call options asks for the terminal; in
    every other case it stores a plain [true]. *)
Theorem finished_stores_response_iff :
  forall (ScalarResponse : Type) (isWatchable : ScalarResponse -> bool)
         (p : Props) (ab : option Block)
         (pre post : list (BlockModel ScalarResponse))
         (x : BlockModel ScalarResponse)
         (response : ScalarResponse) (cancelled : bool) (echo : option bool)
         (evaluatorOptions : CommandOptions) (execOptions : ExecOptions)
         (execUUID responseType : string),
    is_false echo = false ->
    forallb (fun b => negb (matches execUUID b)) pre = true ->
    matches execUUID x = true ->
    exists payload : ResponseOrTrue ScalarResponse,
      onExecEnd isWatchable never_raises (terminal p (pre ++ x :: post) ab)
        response cancelled echo evaluatorOptions execOptions execUUID
        responseType =
      ret (terminal p
             (pre ++ FinishedBlock x payload cancelled
                  :: post ++ [ActiveBlock ""]) ab)
      /\ (payload = StructuredResponse response <->
          (responseType = "ScalarResponse" /\
           (enableWatchPane (config p) = false \/
            isWatchable response = false \/
            alwaysViewIn evaluatorOptions = Some "Terminal" \/
            alwaysViewIn execOptions = Some "Terminal")))
      /\ (payload = PlainTrue <->
          ~ (responseType = "ScalarResponse" /\
             (enableWatchPane (config p) = false \/
              isWatchable response = false \/
              alwaysViewIn evaluatorOptions = Some "Terminal" \/
              alwaysViewIn execOptions = Some "Terminal"))).
Proof.
  intros SR isWatchable p ab pre post x response cancelled echo eo xo
    execUUID responseType Hecho Hpre Hx.
  exists (stored isWatchable p response eo xo responseType).
  split; [| split].
  - rewrite (onExecEnd_matched isWatchable never_raises) by assumption.
    reflexivity.
  - rewrite stored_response_iff, showInTerminal_iff. reflexivity.
  - rewrite stored_true_iff, showInTerminal_iff. reflexivity.
Qed.

Lemma finished_stores_response_iff_witness :
  exists payload : ResponseOrTrue string,
    onExecEnd text_isWatchable never_raises
      (terminal watch_props
         ([CancelledBlock None] ++ ProcessingBlock None "get pods -w" "e1" :: [])
         None)
      "watch" false (Some true)
      {| alwaysViewIn := Some "Sidecar" |} {| alwaysViewIn := None |}
      "e1" "ScalarResponse" =
    ret (terminal watch_props
           ([CancelledBlock None]
              ++ FinishedBlock (ProcessingBlock None "get pods -w" "e1")
                   payload false
              :: [] ++ [ActiveBlock ""]) None)
    /\ (payload = StructuredResponse "watch" <->
        ("ScalarResponse" = "ScalarResponse" /\
         (enableWatchPane (config watch_props) = false \/
          text_isWatchable "watch" = false \/
          alwaysViewIn {| alwaysViewIn := Some "Sidecar" |} = Some "Terminal" \/
          alwaysViewIn {| alwaysViewIn := None |} = Some "Terminal")))
    /\ (payload = PlainTrue <->
        ~ ("ScalarResponse" = "ScalarResponse" /\
           (enableWatchPane (config watch_props) = false \/
            text_isWatchable "watch" = false \/
            alwaysViewIn {| alwaysViewIn := Some "Sidecar" |} = Some "Terminal" \/
            alwaysViewIn {| alwaysViewIn := None |} = Some "Terminal"))).
Proof.
  apply (finished_stores_response_iff string text_isWatchable watch_props None
           [CancelledBlock None] [] (ProcessingBlock None "get pods -w" "e1")
           "watch" false (Some true)
           {| alwaysViewIn := Some "Sidecar" |} {| alwaysViewIn := None |}
           "e1" "ScalarResponse").
  - reflexivity.
  - reflexivity.
  - reflexivity.
Defined.

(** C10. On a sequence with a last block, a start event whose echo is not
    false replaces that block, whatever its state, with
    [Processing(lastBlock, command, execUUID)]: the length is kept and the
    earlier blocks are untouched. A second such event before any completion
    therefore replaces the first Processing block in place: the only
    Processing block then carries the second command and identifier, and
    the first identifier matches it only if the two are equal. *)
Theorem start_overwrites_last_block :
  forall (ScalarResponse : Type) (isWatchable : ScalarResponse -> bool)
         (isPopup : bool) (p : Props) (ab : option Block)
         (earlier : list (BlockModel ScalarResponse))
         (last : BlockModel ScalarResponse)
         (execUUID command : string) (echo : option bool)
         (execUUID' command' : string) (echo' : option bool),
    is_false echo = false ->
    is_false echo' = false ->
    onExecStart isPopup never_raises (terminal p (earlier ++ [last]) ab)
      execUUID command echo =
    (if isPopup && sidecarIsVisible p then [CloseSidecarCalled] else [],
     inr (terminal p
            (earlier ++ [ProcessingBlock (Some last) command execUUID]) ab))
    /\ List.length (earlier ++ [ProcessingBlock (Some last) command execUUID]) =
       List.length (earlier ++ [last])
    /\ run isWatchable isPopup never_raises (terminal p (earlier ++ [last]) ab)
         [CommandStart execUUID command echo;
          CommandStart execUUID' command' echo'] =
       terminal p
         (earlier ++
            [ProcessingBlock
               (Some (ProcessingBlock (Some last) command execUUID))
               command' execUUID']) ab
    /\ matches execUUID
         (ProcessingBlock
            (Some (ProcessingBlock (Some last) command execUUID))
            command' execUUID') = String.eqb execUUID' execUUID.
Proof.
  intros SR isWatchable isPopup p ab earlier last execUUID command echo
    execUUID' command' echo' Hecho Hecho'.
  assert (Hstart : forall last0 u c e0, is_false e0 = false ->
            onExecStart isPopup never_raises
              (terminal p (earlier ++ [last0]) ab) u c e0 =
            (if isPopup && sidecarIsVisible p then [CloseSidecarCalled] else [],
             inr (terminal p (earlier ++ [ProcessingBlock (Some last0) c u]) ab))).
  { intros last0 u c e0 He0. rewrite onExecStart_last by exact He0. reflexivity. }
  split; [apply Hstart, Hecho |].
  split; [rewrite !List.length_app; reflexivity |].
  split.
  - unfold run. cbn [fold_left]. unfold dispatch at 2. cbn [handle].
    rewrite Hstart by exact Hecho. cbn [returned snd].
    unfold dispatch. cbn [handle].
    rewrite Hstart by exact Hecho'. reflexivity.
  - reflexivity.
Qed.

Lemma start_overwrites_last_block_witness :
  run text_isWatchable false never_raises
    (terminal plain_props
       ([CancelledBlock None] ++ [ActiveBlock "sleep 10"]) None)
    [CommandStart "e1" "sleep 10" (Some true);
     CommandStart "e2" "ls" None] =
  terminal plain_props
    ([CancelledBlock None] ++
       [ProcessingBlock
          (Some (ProcessingBlock (Some (ActiveBlock "sleep 10")) "sleep 10" "e1"))
          "ls" "e2"]) None.
Proof.
  refine (proj1 (proj2 (proj2
    (start_overwrites_last_block string text_isWatchable false plain_props
       None [CancelledBlock None] (ActiveBlock "sleep 10")
       "e1" "sleep 10" (Some true) "e2" "ls" None _ _)))).
  - reflexivity.
  - reflexivity.
Defined.

(** * Further properties of the component *)

(** ** Subscriptions *)

Lemma Handler_eqb_eq (h h' : Handler) : Handler_eqb h h' = true <-> h = h'.
Proof. destruct h, h'; cbn; split; intro H; try reflexivity; discriminate. Qed.

Lemma Listener_eqb_eq (l l' : Listener) : Listener_eqb l l' = true <-> l = l'.
Proof.
  destruct l as [i h], l' as [i' h']. unfold Listener_eqb. cbn.
  rewrite andb_true_iff, Nat.eqb_eq, Handler_eqb_eq.
  split; [intros [-> ->]; reflexivity | intro H; inversion H; auto].
Qed.

Lemma Listener_eqb_refl (l : Listener) : Listener_eqb l l = true.
Proof. apply Listener_eqb_eq. reflexivity. Qed.

Lemma Listener_eqb_other_instance (l l' : Listener) :
  instance l <> instance l' -> Listener_eqb l l' = false.
Proof.
  intro H. unfold Listener_eqb.
  apply Nat.eqb_neq in H. rewrite H. reflexivity.
Qed.

(** [remove_first] passes over the registrations that differ and removes
    the first that is equal. *)
Lemma remove_first_skip channel l (before rest : EventChannel) :
  (forall s, In s before ->
     String.eqb (fst s) channel && Listener_eqb (snd s) l = false) ->
  remove_first channel l (before ++ (channel, l) :: rest) = before ++ rest.
Proof.
  induction before as [| [c f] r IH]; intro H; cbn.
  - rewrite String.eqb_refl, Listener_eqb_refl. reflexivity.
  - pose proof (H (c, f) (or_introl eq_refl)) as Hcf. cbn [fst snd] in Hcf.
    rewrite Hcf.
    rewrite IH by (intros s Hs; apply H; right; exact Hs). reflexivity.
Qed.


(** [off] undoes the latest [on] of the listener, whatever was registered
    after it by others. *)
Lemma off_latest channel l (bus later : EventChannel) :
  (forall s, In s later ->
     String.eqb (fst s) channel && Listener_eqb (snd s) l = false) ->
  off channel l (bus ++ (channel, l) :: later) = bus ++ later.
Proof.
  intro H. unfold off.
  rewrite rev_app_distr. cbn [rev]. rewrite <- app_assoc. cbn [app].
  rewrite remove_first_skip.
  - rewrite rev_app_distr, !rev_involutive. reflexivity.
  - intros s Hs. apply H. apply in_rev. exact Hs.
Qed.


Lemma append_eqb_prefix (prefix u u' : string) :
  String.eqb (String.append prefix u) (String.append prefix u') = String.eqb u u'.
Proof.
  induction prefix as [| a r IH]; cbn.
  - reflexivity.
  - rewrite Ascii.eqb_refl. exact IH.
Qed.

(** The three topics of a tab are told apart by their prefixes, and two
    tabs by their identifiers. *)
Lemma channels_eqb (uuid uuid' : string) :
  String.eqb (channel_start uuid) (channel_start uuid') = String.eqb uuid uuid'
  /\ String.eqb (channel_complete uuid) (channel_complete uuid') = String.eqb uuid uuid'
  /\ String.eqb (channel_clear uuid) (channel_clear uuid') = String.eqb uuid uuid'
  /\ String.eqb (channel_start uuid) (channel_complete uuid') = false
  /\ String.eqb (channel_start uuid) (channel_clear uuid') = false
  /\ String.eqb (channel_complete uuid) (channel_start uuid') = false
  /\ String.eqb (channel_complete uuid) (channel_clear uuid') = false
  /\ String.eqb (channel_clear uuid) (channel_start uuid') = false
  /\ String.eqb (channel_clear uuid) (channel_complete uuid') = false.
Proof.
  unfold channel_start, channel_complete, channel_clear.
  rewrite !append_eqb_prefix.
  repeat split; reflexivity.
Qed.

Lemma mount_result (uuid : string) (this : nat) (bus : EventChannel) :
  eventChannelUnsafe (mount uuid this bus) =
  bus ++ [(channel_start uuid, {| instance := this; handler := OnExecStartHandler |});
          (channel_complete uuid, {| instance := this; handler := OnExecEndHandler |});
          (channel_clear uuid, {| instance := this; handler := ClearHandler |})]
  /\ cleaners (mount uuid this bus) =
     [off (channel_start uuid) {| instance := this; handler := OnExecStartHandler |};
      off (channel_complete uuid) {| instance := this; handler := OnExecEndHandler |};
      off (channel_clear uuid) {| instance := this; handler := ClearHandler |}].
Proof.
  unfold mount, initEvents, hookIntoREPL, on_bus, push_cleaner, on. cbn.
  rewrite <- !app_assoc. split; reflexivity.
Qed.

(** The three cleaners, run in order, remove the three registrations of
    the instance and nothing else. *)
Lemma unmount_after_mount :
  forall (uuid : string) (this : nat) (bus later : EventChannel),
    (forall s, In s later -> instance (snd s) <> this) ->
    eventChannelUnsafe
      (componentWillUnmount
         {| cleaners := cleaners (mount uuid this bus);
            eventChannelUnsafe :=
              eventChannelUnsafe (mount uuid this bus) ++ later |}) =
    bus ++ later.
Proof.
  intros uuid this bus later Hlater.
  destruct (mount_result uuid this bus) as [-> ->].
  destruct (channels_eqb uuid uuid) as (_ & _ & _ & Hsc & Hsl & Hcs & Hcl & Hls & Hlc).
  assert (Hother : forall channel h s, In s later ->
            String.eqb (fst s) channel
            && Listener_eqb (snd s) {| instance := this; handler := h |} = false).
  { intros channel h s Hs. rewrite Listener_eqb_other_instance.
    - apply andb_false_r.
    - cbn. apply Hlater, Hs. }
  unfold componentWillUnmount, uninitEvents.
  cbn [cleaners eventChannelUnsafe fold_left].
  rewrite <- app_assoc. cbn [app].
  rewrite off_latest.
  2:{ intros s [<- | [<- | Hs]]; cbn [fst snd].
      - rewrite Hcs. reflexivity.
      - rewrite Hls. reflexivity.
      - apply Hother, Hs. }
  rewrite off_latest.
  2:{ intros s [<- | Hs]; cbn [fst snd].
      - rewrite Hlc. reflexivity.
      - apply Hother, Hs. }
  rewrite off_latest by (intros s Hs; apply Hother, Hs).
  reflexivity.
Qed.

(** X1. Teardown undoes construction. After a terminal was constructed on a
    bus and others registered further listeners, [componentWillUnmount]
    removes the three registrations of this terminal and nothing else: the
    bus is the one before construction followed by the later registrations,
    in order. *)
Theorem unmount_removes_own_subscriptions :
  forall (uuid : string) (this : nat) (bus later : EventChannel),
    (forall s, In s later -> instance (snd s) <> this) ->
    eventChannelUnsafe
      (componentWillUnmount
         {| cleaners := cleaners (mount uuid this bus);
            eventChannelUnsafe :=
              eventChannelUnsafe (mount uuid this bus) ++ later |}) =
    bus ++ later.
Proof.
  intros uuid this bus later Hlater.
  apply unmount_after_mount. exact Hlater.
Qed.

Lemma unmount_removes_own_subscriptions_witness :
  eventChannelUnsafe
    (componentWillUnmount
       {| cleaners := cleaners (mount "t1" 1 [("/terminal/clear/t0", {| instance := 0; handler := ClearHandler |})]);
          eventChannelUnsafe :=
            eventChannelUnsafe
              (mount "t1" 1 [("/terminal/clear/t0", {| instance := 0; handler := ClearHandler |})])
            ++ [("/command/start/fromuser/t1", {| instance := 2; handler := OnExecStartHandler |})] |}) =
  [("/terminal/clear/t0", {| instance := 0; handler := ClearHandler |})]
    ++ [("/command/start/fromuser/t1", {| instance := 2; handler := OnExecStartHandler |})].
Proof.
  apply (unmount_removes_own_subscriptions "t1" 1
           [("/terminal/clear/t0", {| instance := 0; handler := ClearHandler |})]
           [("/command/start/fromuser/t1", {| instance := 2; handler := OnExecStartHandler |})]).
  intros s [<- | []]. cbn. discriminate.
Defined.

Lemma listeners_app (channel : string) (bus later : EventChannel) :
  listeners channel (bus ++ later) = listeners channel bus ++ listeners channel later.
Proof. unfold listeners. rewrite filter_app, map_app. reflexivity. Qed.

(** X2. Constructing a terminal for a tab adds one listener to each of the
    three topics of that tab, the matching bound method, called after the
    listeners already there; the topics of any other tab get none. *)
Theorem mount_subscribes_own_topics_only :
  forall (uuid uuid' : string) (this : nat) (bus : EventChannel),
    listeners (channel_start uuid') (eventChannelUnsafe (mount uuid this bus)) =
    listeners (channel_start uuid') bus
      ++ (if String.eqb uuid uuid'
          then [{| instance := this; handler := OnExecStartHandler |}] else [])
    /\ listeners (channel_complete uuid') (eventChannelUnsafe (mount uuid this bus)) =
       listeners (channel_complete uuid') bus
         ++ (if String.eqb uuid uuid'
             then [{| instance := this; handler := OnExecEndHandler |}] else [])
    /\ listeners (channel_clear uuid') (eventChannelUnsafe (mount uuid this bus)) =
       listeners (channel_clear uuid') bus
         ++ (if String.eqb uuid uuid'
             then [{| instance := this; handler := ClearHandler |}] else []).
Proof.
  intros uuid uuid' this bus.
  destruct (mount_result uuid this bus) as [-> _].
  destruct (channels_eqb uuid uuid')
    as (Hss & Hcc & Hll & Hsc & Hsl & Hcs & Hcl & Hls & Hlc).
  rewrite !listeners_app. unfold listeners. cbn [filter fst].
  rewrite Hss, Hcc, Hll, Hsc, Hsl, Hcs, Hcl, Hls, Hlc.
  destruct (String.eqb uuid uuid'); repeat split; reflexivity.
Qed.



(** ** Focus *)

Lemma isInViewport_iff (page : Page) (rect : DOMRect) :
  isInViewport page rect = true <->
  (0 <= bottom rect)%Q
  /\ (top rect < Qmax (clientHeight page) (innerHeight page))%Q.
Proof.
  unfold isInViewport, Qlt_bool, Qge_bool. cbn zeta.
  rewrite negb_true_iff, orb_false_iff, negb_false_iff, Qle_bool_iff.
  generalize (Qmax (clientHeight page) (innerHeight page)). intro v.
  split; intros [Hb Ht]; split; try exact Hb.
  - destruct (Qlt_le_dec (top rect) v) as [H | H]; [exact H |].
    assert (Hle : (0 <= top rect - v)%Q) by lra.
    apply Qle_bool_iff in Hle. rewrite Hle in Ht. discriminate.
  - destruct (Qle_bool 0 (top rect - v)) eqn:E; [| reflexivity].
    apply Qle_bool_iff in E. lra.
Qed.

(** X4. For an element whose top edge is not below its bottom edge, in a
    viewport of positive height, [isInViewport] holds exactly when some
    height belongs both to the element and to the viewport, whose height is
    the larger of [clientHeight] and [innerHeight]: an element that only
    touches the top edge with its bottom counts as visible, one that starts
    at the bottom edge does not. *)
Theorem isInViewport_intersects :
  forall (page : Page) (rect : DOMRect),
    (top rect <= bottom rect)%Q ->
    (0 < Qmax (clientHeight page) (innerHeight page))%Q ->
    (isInViewport page rect = true <->
     exists y : Q,
       (top rect <= y)%Q /\ (y <= bottom rect)%Q /\ (0 <= y)%Q
       /\ (y < Qmax (clientHeight page) (innerHeight page))%Q).
Proof.
  intros page rect Hrect Hview. rewrite isInViewport_iff.
  generalize dependent (Qmax (clientHeight page) (innerHeight page)).
  intros v Hview. split.
  - intros [Hb Ht].
    destruct (Qlt_le_dec (top rect) 0) as [Hneg | Hpos].
    + exists 0%Q. repeat split; lra.
    + exists (top rect). repeat split; lra.
  - intros (y & H1 & H2 & H3 & H4). split; lra.
Qed.

Lemma isInViewport_intersects_witness :
  isInViewport
    {| clientHeight := 600; innerHeight := 640; _block := fun _ => None;
       xterm := false; activeElementIsBody := true; selection := "" |}
    {| top := -20; bottom := 0 |} = true <->
  exists y : Q,
    (top {| top := -20; bottom := 0 |} <= y)%Q
    /\ (y <= bottom {| top := -20; bottom := 0 |})%Q /\ (0 <= y)%Q
    /\ (y < Qmax 600 640)%Q.
Proof.
  apply (isInViewport_intersects
           {| clientHeight := 600; innerHeight := 640; _block := fun _ => None;
              xterm := false; activeElementIsBody := true; selection := "" |}
           {| top := -20; bottom := 0 |}).
  - cbn. discriminate.
  - reflexivity.
Defined.

(** X5. [doFocus] makes at most one focus request. With a known active
    block it asks that block to take the focus exactly when the block holds
    an element that is in the viewport, and never falls back to the xterm
    text area, not even when the block is off screen or holds no element;
    without a known active block it focuses the xterm text area exactly when
    the page has one. A click requests the same, and only when
    [document.body] has the focus and no text is selected. *)
Theorem doFocus_requests :
  forall (ScalarResponse : Type) (this : ScrollableTerminal ScalarResponse)
         (page : Page),
    (List.length (doFocus this page) <= 1)%nat
    /\ (In XtermFocus (doFocus this page) <->
        _activeBlock this = None /\ xterm page = true)
    /\ (In ActiveBlockDoFocus (doFocus this page) <->
        exists b rect,
          _activeBlock this = Some b /\ _block page b = Some rect
          /\ (0 <= bottom rect)%Q
          /\ (top rect < Qmax (clientHeight page) (innerHeight page))%Q)
    /\ (forall call, In call (onClick this page) <->
          In call (doFocus this page)
          /\ activeElementIsBody page = true /\ selection page = EmptyString).
Proof.
  intros SR this page. unfold onClick, doFocus.
  assert (Hclick : forall calls : list FocusCall, forall call,
            In call (if activeElementIsBody page && negb (truthy (selection page))
                     then calls else []) <->
            In call calls
            /\ activeElementIsBody page = true /\ selection page = EmptyString).
  { intros calls call.
    destruct (activeElementIsBody page), (selection page); cbn;
      intuition discriminate. }
  destruct (_activeBlock this) as [b |] eqn:Hab.
  - destruct (_block page b) as [rect |] eqn:Hel.
    + destruct (isInViewport page rect) eqn:Hin.
      * pose proof Hin as Hvis. apply isInViewport_iff in Hvis as [Hb Ht].
        split; [cbn; lia |]. split; [| split; [| apply Hclick]].
        -- cbn. split; [intros [H | []]; discriminate | intros [H _]; discriminate].
        -- cbn. split; [intros _ | auto]. exists b, rect. auto.
      * split; [cbn; lia |]. split; [| split; [| apply Hclick]].
        -- cbn. split; [intros [] | intros [H _]; discriminate].
        -- cbn. split; [intros [] |].
           intros (b' & rect' & Hb' & Hr' & H0 & H1).
           injection Hb' as <-. rewrite Hel in Hr'. injection Hr' as <-.
           assert (Hin' : isInViewport page rect = true)
             by (apply isInViewport_iff; auto).
           rewrite Hin in Hin'. discriminate.
    + split; [cbn; lia |]. split; [| split; [| apply Hclick]].
      * cbn. split; [intros [] | intros [H _]; discriminate].
      * cbn. split; [intros [] |].
        intros (b' & rect' & Hb' & Hr' & _).
        injection Hb' as <-. rewrite Hel in Hr'. discriminate.
  - destruct (xterm page).
    + split; [cbn; lia |]. split; [| split; [| apply Hclick]].
      * cbn. split; auto.
      * cbn. split; [intros [H | []]; discriminate |].
        intros (b' & rect' & Hb' & _). discriminate.
    + split; [cbn; lia |]. split; [| split; [| apply Hclick]].
      * cbn. split; [intros [] | intros [_ H]; discriminate].
      * cbn. split; [intros [] |].
        intros (b' & rect' & Hb' & _). discriminate.
Qed.

(** ** Rendering and removal *)

Section RenderFacts.

Context {ScalarResponse : Type}.
Variable raises : ConstructorCall ScalarResponse -> option Exn.

Implicit Types (bs pre post : list (BlockModel ScalarResponse))
  (x : BlockModel ScalarResponse) (el : BlockElement ScalarResponse).

Lemma render_from_length bs i :
  List.length (render_from raises bs i) = List.length bs.
Proof.
  revert i. induction bs as [| b r IH]; intro i; cbn; [| rewrite IH]; reflexivity.
Qed.

(** The [n]-th child is built from the [n]-th block and carries its index. *)
Lemma render_from_nth bs :
  forall i n el,
    nth_error (render_from raises bs i) n = Some el ->
    nth_error bs n = Some (model el)
    /\ idx el = (i + Z.of_nat n)%Z
    /\ key el = (i + Z.of_nat n)%Z
    /\ willRemove el =
       (fun this => willRemoveBlock raises this (i + Z.of_nat n)%Z)
    /\ ref el =
       (fun c this => if isActive (model el) then setActiveBlock this c else this).
Proof.
  induction bs as [| b r IH]; intros i n el H.
  - destruct n; discriminate H.
  - destruct n as [| n'].
    + cbn in H. injection H as <-. cbn. rewrite Z.add_0_r. auto.
    + cbn [render_from nth_error] in H.
      destruct (IH _ _ _ H) as (Hm & Hi & Hk & Hw & Hr).
      replace (i + Z.of_nat (S n'))%Z with (i + 1 + Z.of_nat n')%Z by lia.
      cbn [nth_error]. auto.
Qed.

Lemma nth_error_cut {A : Type} (l : list A) n (a : A) :
  nth_error l n = Some a ->
  exists l1 l2 : list A, l = l1 ++ a :: l2 /\ List.length l1 = n.
Proof.
  intro H. apply nth_error_split in H as (l1 & l2 & -> & Hlen).
  exists l1, l2. auto.
Qed.

(** An index at or beyond the end cuts nothing off. *)
Lemma slice_all {A : Type} (l : list A) (i : Z) :
  (JsArray.length l <= i)%Z -> JsArray.slice l 0 i = l.
Proof.
  intro H. unfold JsArray.slice, JsArray.clamp.
  pose proof (length_nonneg l) as Hl.
  destruct (Z.ltb_spec i 0) as [Hi | Hi]; [lia |].
  cbn [Z.ltb Z.compare].
  replace (Z.min 0 (JsArray.length l)) with 0%Z by lia.
  replace (Z.min i (JsArray.length l)) with (JsArray.length l) by lia.
  cbn [Z.to_nat skipn]. rewrite Z.sub_0_r.
  unfold JsArray.length. rewrite Nat2Z.id. apply firstn_all.
Qed.

Lemma slice_from_none {A : Type} (l : list A) (i : Z) :
  (JsArray.length l <= i)%Z -> JsArray.slice_from l i = [].
Proof.
  intro H. unfold JsArray.slice_from, JsArray.slice, JsArray.clamp.
  pose proof (length_nonneg l) as Hl.
  destruct (Z.ltb_spec i 0) as [Hi | Hi]; [lia |].
  destruct (Z.ltb_spec (JsArray.length l) 0) as [Hn | Hn]; [lia |].
  replace (Z.min i (JsArray.length l)) with (JsArray.length l) by lia.
  rewrite Z.min_id, Z.sub_diag. reflexivity.
Qed.

Lemma willRemoveBlock_beyond (this : ScrollableTerminal ScalarResponse) (i : Z) :
  (JsArray.length (blocks (state this)) <= i)%Z ->
  willRemoveBlock raises this i =
  match JsArray.find isActive (blocks (state this)) with
  | Some _ => ret this
  | None =>
      match raises (CallActive None) with
      | Some e => throw e
      | None =>
          ret (terminal (props this)
                 (blocks (state this) ++ [ActiveBlock EmptyString])
                 (_activeBlock this))
      end
  end.
Proof.
  destruct this as [p [bs] ab]. cbn [state blocks props _activeBlock]. intro H.
  unfold willRemoveBlock, setState.
  cbn [state blocks terminal props _activeBlock].
  rewrite slice_all by exact H.
  rewrite slice_from_none by lia.
  unfold JsArray.concat, Active, construct. rewrite app_nil_r.
  destruct (JsArray.find isActive bs); cbn.
  - rewrite app_nil_r. reflexivity.
  - destruct (raises (CallActive None)); reflexivity.
Qed.

(** The [ref] callbacks, called in order, keep the component of the last
    Active block. *)
Lemma attach_last_active pre x post :
  forall (cpre cpost : list Block) (c : Block)
         (this : ScrollableTerminal ScalarResponse) (i : Z),
    List.length cpre = List.length pre ->
    isActive x = true ->
    forallb (fun b => negb (isActive b)) post = true ->
    attach (render_from raises (pre ++ x :: post) i) (cpre ++ c :: cpost) this =
    setActiveBlock this (Some c).
Proof.
  assert (Hpost : forall post' cpost' (t : ScrollableTerminal ScalarResponse) j,
            forallb (fun b => negb (isActive b)) post' = true ->
            attach (render_from raises post' j) cpost' t = t).
  { induction post' as [| b r IH]; intros cpost' t j H.
    - destruct cpost'; reflexivity.
    - cbn in H. apply andb_true_iff in H as [Hb Hr].
      apply negb_true_iff in Hb.
      destruct cpost' as [| c' cs]; [reflexivity |].
      cbn. rewrite Hb. apply IH, Hr. }
  induction pre as [| b r IH]; intros cpre cpost c this i Hlen Hx Hp.
  - destruct cpre; [| discriminate Hlen].
    cbn. rewrite Hx. apply Hpost, Hp.
  - destruct cpre as [| c' cs]; [discriminate Hlen |].
    cbn in Hlen. injection Hlen as Hlen.
    cbn [app render_from attach ref].
    rewrite (IH cs cpost c _ (i + 1)%Z Hlen Hx Hp).
    destruct (isActive b); reflexivity.
Qed.

Lemma attach_no_active bs :
  forall (components : list Block)
         (this : ScrollableTerminal ScalarResponse) (i : Z),
    forallb (fun b => negb (isActive b)) bs = true ->
    attach (render_from raises bs i) components this = this.
Proof.
  induction bs as [| b r IH]; intros components this i H.
  - destruct components; reflexivity.
  - cbn in H. apply andb_true_iff in H as [Hb Hr].
    apply negb_true_iff in Hb.
    destruct components as [| c cs]; [reflexivity |].
    cbn. rewrite Hb. apply IH, Hr.
Qed.

End RenderFacts.

(** X6. Every block is rendered, with its position as [idx] and [key], and
    the [willRemove] that [render] hands to the child of a block, called on
    the terminal that was rendered, removes that block and no other: the
    blocks before and after it are kept in order, and an Active block is
    appended when the sequence held none. *)
Theorem render_willRemove_removes_its_block :
  forall (ScalarResponse : Type)
         (raises : ConstructorCall ScalarResponse -> option Exn)
         (p : Props) (ab : option Block)
         (bs : list (BlockModel ScalarResponse)) (n : nat)
         (el : BlockElement ScalarResponse),
    nth_error (render raises (terminal p bs ab)) n = Some el ->
    List.length (render raises (terminal p bs ab)) = List.length bs
    /\ idx el = Z.of_nat n /\ key el = Z.of_nat n
    /\ exists pre post,
         bs = pre ++ model el :: post /\ List.length pre = n
         /\ willRemove el (terminal p bs ab) =
            match JsArray.find isActive bs with
            | Some _ => ret (terminal p (pre ++ post) ab)
            | None =>
                match raises (CallActive None) with
                | Some e => throw e
                | None => ret (terminal p (pre ++ post ++ [ActiveBlock ""]) ab)
                end
            end.
Proof.
  intros SR raises p ab bs n el H. unfold render in *.
  cbn [state blocks terminal] in *.
  destruct (render_from_nth raises bs 0 n el H) as (Hm & Hi & Hk & Hw & _).
  split; [apply render_from_length |].
  split; [rewrite Hi; lia |]. split; [rewrite Hk; lia |].
  destruct (nth_error_cut bs n (model el) Hm) as (pre & post & Hbs & Hlen).
  exists pre, post. split; [exact Hbs |]. split; [exact Hlen |].
  rewrite Hw. cbn beta.
  replace (0 + Z.of_nat n)%Z with (JsArray.length pre)
    by (unfold JsArray.length; lia).
  rewrite Hbs at 1 2. apply willRemoveBlock_at.
Qed.

Lemma render_willRemove_removes_its_block_witness :
  List.length
    (render (ScalarResponse := string) never_raises
       (terminal plain_props
          [CancelledBlock None; ProcessingBlock None "ls" "e1"] None)) =
  List.length [CancelledBlock (ScalarResponse := string) None;
               ProcessingBlock None "ls" "e1"]
  /\ 0%Z = Z.of_nat 0 /\ 0%Z = Z.of_nat 0
  /\ exists pre post : list (BlockModel string),
       [CancelledBlock None; ProcessingBlock None "ls" "e1"] =
       pre ++ CancelledBlock None :: post /\ List.length pre = 0%nat
       /\ willRemoveBlock never_raises
            (terminal plain_props
               [CancelledBlock None; ProcessingBlock None "ls" "e1"] None) 0 =
          match JsArray.find isActive
                  [CancelledBlock (ScalarResponse := string) None;
                   ProcessingBlock None "ls" "e1"] with
          | Some _ => ret (terminal plain_props (pre ++ post) None)
          | None =>
              match never_raises (ScalarResponse := string) (CallActive None) with
              | Some e => throw e
              | None =>
                  ret (terminal plain_props (pre ++ post ++ [ActiveBlock ""]) None)
              end
          end.
Proof.
  exact (render_willRemove_removes_its_block string never_raises plain_props
           None [CancelledBlock None; ProcessingBlock None "ls" "e1"] 0 _
           eq_refl).
Defined.

(** X7. An index at or beyond the end of the sequence, as a removal
    requested for a sequence that has since become shorter would carry,
    removes no block: the sequence is kept, and an Active block is appended
    when it holds none. *)
Theorem willRemoveBlock_beyond_end_removes_nothing :
  forall (ScalarResponse : Type)
         (raises : ConstructorCall ScalarResponse -> option Exn)
         (this : ScrollableTerminal ScalarResponse) (i : Z),
    (JsArray.length (blocks (state this)) <= i)%Z ->
    willRemoveBlock raises this i =
    match JsArray.find isActive (blocks (state this)) with
    | Some _ => ret this
    | None =>
        match raises (CallActive None) with
        | Some e => throw e
        | None =>
            ret (terminal (props this)
                   (blocks (state this) ++ [ActiveBlock ""])
                   (_activeBlock this))
        end
    end.
Proof.
  intros SR raises this i H. apply willRemoveBlock_beyond. exact H.
Qed.

Lemma willRemoveBlock_beyond_end_removes_nothing_witness :
  willRemoveBlock (ScalarResponse := string) never_raises
    (terminal plain_props [ActiveBlock "ls"] None) 2 =
  ret (terminal plain_props [ActiveBlock "ls"] None).
Proof.
  apply (willRemoveBlock_beyond_end_removes_nothing string never_raises
           (terminal plain_props [ActiveBlock "ls"] None) 2).
  cbn. lia.
Defined.

(** X8. When the [ref] callbacks of the rendered children are called in
    order, each with the component of its child, [_activeBlock] ends as the
    component of the last Active block; with no Active block it keeps the
    value it had. The props and the blocks are not touched. *)
Theorem attach_keeps_last_active_block :
  forall (ScalarResponse : Type)
         (raises : ConstructorCall ScalarResponse -> option Exn)
         (p : Props) (ab : option Block)
         (pre post : list (BlockModel ScalarResponse))
         (x : BlockModel ScalarResponse)
         (cpre cpost : list Block) (c : Block),
    List.length cpre = List.length pre ->
    forallb (fun b => negb (isActive b)) post = true ->
    (isActive x = true ->
     attach (render raises (terminal p (pre ++ x :: post) ab))
       (cpre ++ c :: cpost) (terminal p (pre ++ x :: post) ab) =
     terminal p (pre ++ x :: post) (Some c))
    /\
    (forallb (fun b => negb (isActive b)) (pre ++ [x]) = true ->
     attach (render raises (terminal p (pre ++ x :: post) ab))
       (cpre ++ c :: cpost) (terminal p (pre ++ x :: post) ab) =
     terminal p (pre ++ x :: post) ab).
Proof.
  intros SR raises p ab pre post x cpre cpost c Hlen Hpost. unfold render.
  cbn [state blocks terminal]. split.
  - intro Hx. rewrite (attach_last_active raises pre x post) by assumption.
    reflexivity.
  - intro Hpre. apply attach_no_active.
    rewrite forallb_app in Hpre. apply andb_true_iff in Hpre as [H1 H2].
    cbn in H2. rewrite andb_true_r in H2.
    rewrite forallb_app. cbn. rewrite H1, H2, Hpost. reflexivity.
Qed.

Lemma attach_keeps_last_active_block_witness :
  attach
    (render (ScalarResponse := string) never_raises
       (terminal plain_props ([CancelledBlock None] ++ ActiveBlock "" :: []) None))
    ([{| inputValue := "" |}] ++ {| inputValue := "ls" |} :: [])
    (terminal plain_props ([CancelledBlock None] ++ ActiveBlock "" :: []) None) =
  terminal plain_props ([CancelledBlock None] ++ ActiveBlock "" :: [])
    (Some {| inputValue := "ls" |}).
Proof.
  refine (proj1 (attach_keeps_last_active_block string never_raises plain_props
            None [CancelledBlock None] [] (ActiveBlock "")
            [{| inputValue := "" |}] [] {| inputValue := "ls" |} _ _) _).
  - reflexivity.
  - reflexivity.
  - reflexivity.
Defined.

(** ** More on the handlers *)

Section HandlerFacts.

Context {ScalarResponse : Type}.
Variable isWatchable : ScalarResponse -> bool.
Variable isPopup : bool.
Variable raises : ConstructorCall ScalarResponse -> option Exn.

Implicit Types (p : Props) (ab : option Block)
  (bs pre post earlier : list (BlockModel ScalarResponse))
  (x last : BlockModel ScalarResponse)
  (this : ScrollableTerminal ScalarResponse).

(** The calls that [onExecEnd] makes to the outside: none, or one
    [console.error] with one of two messages. *)
Lemma onExecEnd_effects this response cancelled echo
  (eo : CommandOptions) (xo : ExecOptions) execUUID responseType :
  effects (onExecEnd isWatchable raises this response cancelled echo eo xo
             execUUID responseType) = []
  \/ (exists e,
        effects (onExecEnd isWatchable raises this response cancelled echo eo xo
                   execUUID responseType) =
        [ConsoleError "error updating state" (message_of e)])
  \/ effects (onExecEnd isWatchable raises this response cancelled echo eo xo
                execUUID responseType) =
     [ConsoleError
        "invalid state: got a command completion event, but never got command start event"
        execUUID].
Proof.
  rewrite (terminal_eta this).
  generalize (props this) (blocks (state this)) (_activeBlock this).
  intros p bs ab.
  destruct (is_false echo) eqn:Hecho.
  { left. unfold onExecEnd. rewrite Hecho. reflexivity. }
  destruct (JsArray.findIndex (matches execUUID) bs >=? 0)%Z eqn:Hidx.
  - apply Z.geb_le in Hidx.
    destruct (findIndex_found (matches execUUID) bs)
      as (pre & x & post & -> & Hpre & Hx & _); [lia |].
    rewrite onExecEnd_matched by assumption. cbn zeta.
    destruct (raises (CallFinished _ _ _)) as [e |].
    + right. left. exists e. reflexivity.
    + destruct (raises (CallActive None)) as [e |].
      * right. left. exists e. reflexivity.
      * left. reflexivity.
  - apply findIndex_negative in Hidx.
    destruct cancelled.
    + rewrite onExecEnd_bare_cancel by assumption. cbn zeta. left.
      destruct (raises (CallCancelled _)); [reflexivity |].
      destruct (raises (CallActive None)); reflexivity.
    + rewrite onExecEnd_unmatched by assumption. right. right. reflexivity.
Qed.

Lemma onExecStart_effects this execUUID command echo :
  effects (onExecStart isPopup raises this execUUID command echo) =
  if negb (is_false echo) && (isPopup && sidecarIsVisible (props this))
  then [CloseSidecarCalled] else [].
Proof.
  unfold onExecStart. destruct (is_false echo); [reflexivity |].
  unfold setState, Processing, construct. cbn [negb andb].
  destruct (isPopup && sidecarIsVisible (props this));
    destruct (raises (CallProcessing _ _ _)); reflexivity.
Qed.

Lemma clear_effects this :
  effects (clear raises this) =
  if onClear (props this) then [OnClearCalled] else [].
Proof.
  unfold clear, setState, Active, construct.
  destruct (onClear (props this)); destruct (raises (CallActive _)); reflexivity.
Qed.

Lemma run_open_last evs :
  forall this,
    open_last (blocks (state this)) = true ->
    open_last (blocks (state (run isWatchable isPopup raises this evs))) = true.
Proof.
  induction evs as [| ev rest IH]; intros this H; cbn.
  - exact H.
  - apply IH, dispatch_open_last, H.
Qed.

(** From a sequence of the usual shape, an event other than a clear keeps
    every block but the last, and puts one or two blocks in the place of the
    last. *)
Lemma dispatch_keeps_history this ev :
  open_last (blocks (state this)) = true ->
  ev <> TerminalClear ->
  exists added,
    blocks (state (dispatch isWatchable isPopup raises this ev)) =
    removelast (blocks (state this)) ++ added
    /\ (1 <= List.length added <= 2)%nat.
Proof.
  intros Hinv Hev.
  destruct (open_last_split _ Hinv) as (earlier & last & Hbs & He & Hl).
  rewrite (terminal_eta this) in *. cbn [state blocks terminal] in Hbs, Hinv |- *.
  generalize dependent (blocks (state this)). intros bs Hinv ->.
  generalize (props this) (_activeBlock this). intros p ab.
  rewrite removelast_last.
  assert (Hsame : exists added,
            earlier ++ [last] = earlier ++ added
            /\ (1 <= List.length added <= 2)%nat).
  { exists [last]. cbn. split; [reflexivity | lia]. }
  unfold dispatch.
  destruct ev as [execUUID command echo
                 | response cancelled echo eo xo execUUID responseType
                 | | c]; cbn [handle].
  - destruct (is_false echo) eqn:Hecho.
    + unfold onExecStart. rewrite Hecho. exact Hsame.
    + rewrite onExecStart_last by exact Hecho.
      destruct (raises (CallProcessing _ _ _)); cbn; [exact Hsame |].
      eexists. split; [reflexivity | cbn; lia].
  - destruct (is_false echo) eqn:Hecho.
    + unfold onExecEnd. rewrite Hecho. exact Hsame.
    + destruct (matches execUUID last) eqn:Hlast.
      * rewrite (onExecEnd_matched isWatchable raises p ab earlier last []);
          auto using settled_no_match.
        cbn zeta.
        destruct (raises (CallFinished _ _ _)); cbn; [exact Hsame |].
        destruct (raises (CallActive None)); cbn; [exact Hsame |].
        eexists. split; [reflexivity | cbn; lia].
      * assert (Hnone : forallb (fun b => negb (matches execUUID b))
                          (earlier ++ [last]) = true).
        { rewrite forallb_app, (settled_no_match _ _ He). cbn.
          rewrite Hlast. reflexivity. }
        destruct cancelled.
        -- rewrite onExecEnd_bare_cancel by assumption. cbn zeta.
           rewrite get_last, slice_but_last.
           destruct (raises (CallCancelled _)); cbn; [exact Hsame |].
           destruct (raises (CallActive None)); cbn; [exact Hsame |].
           eexists. split; [reflexivity | cbn; lia].
        -- rewrite onExecEnd_unmatched by assumption. exact Hsame.
  - contradiction Hev. reflexivity.
  - exact Hsame.
Qed.

End HandlerFacts.

(** X9. The diagnostic of [onExecEnd] for a found block that is not
    Processing is never logged: [findIndex] only finds Processing blocks, so
    the branch cannot be taken. [onExecEnd] logs at most one
    [console.error]. *)
Theorem onExecEnd_never_reports_non_processing_block :
  forall (ScalarResponse : Type) (isWatchable : ScalarResponse -> bool)
         (raises : ConstructorCall ScalarResponse -> option Exn)
         (this : ScrollableTerminal ScalarResponse)
         (response : ScalarResponse) (cancelled : bool) (echo : option bool)
         (evaluatorOptions : CommandOptions) (execOptions : ExecOptions)
         (execUUID responseType detail : string),
    ~ In (ConsoleError
            "invalid state: got a command completion event for a block that is not processing"
            detail)
         (effects (onExecEnd isWatchable raises this response cancelled echo
                     evaluatorOptions execOptions execUUID responseType))
    /\ (List.length
          (effects (onExecEnd isWatchable raises this response cancelled echo
                      evaluatorOptions execOptions execUUID responseType))
        <= 1)%nat.
Proof.
  intros SR isWatchable raises this response cancelled echo eo xo execUUID
    responseType detail.
  destruct (onExecEnd_effects isWatchable raises this response cancelled echo
              eo xo execUUID responseType) as [-> | [[e ->] | ->]].
  - split; [intros [] | cbn; lia].
  - split; [| cbn; lia].
    intros [H | []]. discriminate H.
  - split; [| cbn; lia].
    intros [H | []]. discriminate H.
Qed.

(** X10. A completion that finds its Processing block never throws, whatever
    the constructors do: either both [Finished] and [Active] return, and the
    new sequence is installed without any log, or one of them throws, and
    the handler logs one ['error updating state'] with the exception and
    leaves the terminal as it was. *)
Theorem matched_completion_never_throws :
  forall (ScalarResponse : Type) (isWatchable : ScalarResponse -> bool)
         (raises : ConstructorCall ScalarResponse -> option Exn)
         (p : Props) (ab : option Block)
         (pre post : list (BlockModel ScalarResponse))
         (x : BlockModel ScalarResponse)
         (response : ScalarResponse) (cancelled : bool) (echo : option bool)
         (evaluatorOptions : CommandOptions) (execOptions : ExecOptions)
         (execUUID responseType : string),
    is_false echo = false ->
    forallb (fun b => negb (matches execUUID b)) pre = true ->
    matches execUUID x = true ->
    thrown (onExecEnd isWatchable raises (terminal p (pre ++ x :: post) ab)
              response cancelled echo evaluatorOptions execOptions execUUID
              responseType) = None
    /\ (onExecEnd isWatchable raises (terminal p (pre ++ x :: post) ab)
          response cancelled echo evaluatorOptions execOptions execUUID
          responseType =
        ret (terminal p
               (pre ++ FinishedBlock x
                         (stored isWatchable p response evaluatorOptions
                            execOptions responseType) cancelled
                    :: post ++ [ActiveBlock ""]) ab)
        \/ exists e,
             (raises (CallFinished x
                        (stored isWatchable p response evaluatorOptions
                           execOptions responseType) cancelled) = Some e
              \/ raises (CallActive None) = Some e)
             /\ onExecEnd isWatchable raises (terminal p (pre ++ x :: post) ab)
                  response cancelled echo evaluatorOptions execOptions execUUID
                  responseType =
                ([ConsoleError "error updating state" (message_of e)],
                 inr (terminal p (pre ++ x :: post) ab))).
Proof.
  intros SR isWatchable raises p ab pre post x response cancelled echo eo xo
    execUUID responseType Hecho Hpre Hx.
  rewrite onExecEnd_matched by assumption. cbn zeta.
  destruct (raises (CallFinished _ _ _)) as [e |] eqn:Hf.
  - split; [reflexivity |]. right. exists e. auto.
  - destruct (raises (CallActive None)) as [e |] eqn:Ha.
    + split; [reflexivity |]. right. exists e. auto.
    + split; [reflexivity |]. left. reflexivity.
Qed.

Lemma matched_completion_never_throws_witness :
  thrown (onExecEnd text_isWatchable Active_throws
            (terminal plain_props ([] ++ ProcessingBlock None "ls" "e1" :: []) None)
            "ok" false (Some true)
            {| alwaysViewIn := None |} {| alwaysViewIn := None |}
            "e1" "ScalarResponse") = None
  /\ (onExecEnd text_isWatchable Active_throws
        (terminal plain_props ([] ++ ProcessingBlock None "ls" "e1" :: []) None)
        "ok" false (Some true)
        {| alwaysViewIn := None |} {| alwaysViewIn := None |}
        "e1" "ScalarResponse" =
      ret (terminal plain_props
             ([] ++ FinishedBlock (ProcessingBlock None "ls" "e1")
                      (stored text_isWatchable plain_props "ok"
                         {| alwaysViewIn := None |} {| alwaysViewIn := None |}
                         "ScalarResponse") false
                 :: [] ++ [ActiveBlock ""]) None)
      \/ exists e,
           (Active_throws
              (CallFinished (ProcessingBlock None "ls" "e1")
                 (stored text_isWatchable plain_props "ok"
                    {| alwaysViewIn := None |} {| alwaysViewIn := None |}
                    "ScalarResponse") false) = Some e
            \/ Active_throws (CallActive None) = Some e)
           /\ onExecEnd text_isWatchable Active_throws
                (terminal plain_props
                   ([] ++ ProcessingBlock None "ls" "e1" :: []) None)
                "ok" false (Some true)
                {| alwaysViewIn := None |} {| alwaysViewIn := None |}
                "e1" "ScalarResponse" =
              ([ConsoleError "error updating state" (message_of e)],
               inr (terminal plain_props
                      ([] ++ ProcessingBlock None "ls" "e1" :: []) None))).
Proof.
  apply (matched_completion_never_throws string text_isWatchable Active_throws
           plain_props None [] [] (ProcessingBlock None "ls" "e1")
           "ok" false (Some true)
           {| alwaysViewIn := None |} {| alwaysViewIn := None |}
           "e1" "ScalarResponse").
  - reflexivity.
  - reflexivity.
  - reflexivity.
Defined.

(** X11. A command from start to end. On a sequence whose earlier blocks
    hold no Processing block of the identifier, a start event followed by the
    completion with the same identifier (both echoing) turns the last block
    into the Finished block of that command and appends a new, empty Active
    block; the earlier blocks are kept. *)
Theorem start_then_complete :
  forall (ScalarResponse : Type) (isWatchable : ScalarResponse -> bool)
         (isPopup : bool) (p : Props) (ab : option Block)
         (earlier : list (BlockModel ScalarResponse))
         (last : BlockModel ScalarResponse)
         (execUUID command : string) (echo echo' : option bool)
         (response : ScalarResponse) (cancelled : bool)
         (evaluatorOptions : CommandOptions) (execOptions : ExecOptions)
         (responseType : string),
    is_false echo = false ->
    is_false echo' = false ->
    forallb (fun b => negb (matches execUUID b)) earlier = true ->
    run isWatchable isPopup never_raises (terminal p (earlier ++ [last]) ab)
      [CommandStart execUUID command echo;
       CommandComplete response cancelled echo' evaluatorOptions execOptions
         execUUID responseType] =
    terminal p
      (earlier ++
         [FinishedBlock (ProcessingBlock (Some last) command execUUID)
            (stored isWatchable p response evaluatorOptions execOptions
               responseType) cancelled;
          ActiveBlock ""]) ab.
Proof.
  intros SR isWatchable isPopup p ab earlier last execUUID command echo echo'
    response cancelled eo xo responseType Hecho Hecho' Hearlier.
  unfold run. cbn [fold_left]. unfold dispatch at 2. cbn [handle].
  rewrite onExecStart_last by exact Hecho. cbn [never_raises returned snd].
  unfold dispatch. cbn [handle].
  rewrite (onExecEnd_matched isWatchable never_raises p ab earlier
             (ProcessingBlock (Some last) command execUUID) []).
  - reflexivity.
  - exact Hecho'.
  - exact Hearlier.
  - unfold matches, execUUID_is. cbn. apply String.eqb_refl.
Qed.

Lemma start_then_complete_witness :
  run text_isWatchable false never_raises
    (terminal plain_props ([CancelledBlock None] ++ [ActiveBlock ""]) None)
    [CommandStart "e1" "ls" (Some true);
     CommandComplete "ok" false None
       {| alwaysViewIn := None |} {| alwaysViewIn := None |}
       "e1" "ScalarResponse"] =
  terminal plain_props
    ([CancelledBlock None] ++
       [FinishedBlock (ProcessingBlock (Some (ActiveBlock "")) "ls" "e1")
          (stored text_isWatchable plain_props "ok"
             {| alwaysViewIn := None |} {| alwaysViewIn := None |}
             "ScalarResponse") false;
        ActiveBlock ""]) None.
Proof.
  apply (start_then_complete string text_isWatchable false plain_props None
           [CancelledBlock None] (ActiveBlock "") "e1" "ls" (Some true) None
           "ok" false {| alwaysViewIn := None |} {| alwaysViewIn := None |}
           "ScalarResponse").
  - reflexivity.
  - reflexivity.
  - reflexivity.
Defined.

(** X12. History is only appended to. Along every run from a fresh
    terminal, an event other than a clear keeps every block but the last in
    place and puts one or two blocks where the last was, whether its handler
    returns or throws: no start or completion event changes, moves or drops
    an earlier block. *)
Theorem history_is_kept_by_start_and_complete :
  forall (ScalarResponse : Type) (isWatchable : ScalarResponse -> bool)
         (isPopup : bool)
         (raises : ConstructorCall ScalarResponse -> option Exn)
         (p : Props) (evs : list (Event ScalarResponse))
         (ev : Event ScalarResponse),
    ev <> TerminalClear ->
    exists added,
      blocks (state (dispatch isWatchable isPopup raises
                       (run isWatchable isPopup raises (fresh p) evs) ev)) =
      removelast
        (blocks (state (run isWatchable isPopup raises (fresh p) evs)))
      ++ added
      /\ (1 <= List.length added <= 2)%nat.
Proof.
  intros SR isWatchable isPopup raises p evs ev Hev.
  apply dispatch_keeps_history; [| exact Hev].
  apply run_open_last. reflexivity.
Qed.

Lemma history_is_kept_by_start_and_complete_witness :
  exists added,
    blocks (state (dispatch text_isWatchable false never_raises
                     (run text_isWatchable false never_raises (fresh plain_props)
                        [CommandStart "e1" "ls" None])
                     (CommandComplete "ok" false None
                        {| alwaysViewIn := None |} {| alwaysViewIn := None |}
                        "e1" "ScalarResponse"))) =
    removelast
      (blocks (state (run text_isWatchable false never_raises (fresh plain_props)
                        [CommandStart "e1" "ls" None])))
    ++ added
    /\ (1 <= List.length added <= 2)%nat.
Proof.
  apply (history_is_kept_by_start_and_complete string text_isWatchable false
           never_raises plain_props [CommandStart "e1" "ls" None]
           (CommandComplete "ok" false None
              {| alwaysViewIn := None |} {| alwaysViewIn := None |}
              "e1" "ScalarResponse")).
  discriminate.
Defined.

(** X13. A completion event that arrives twice is applied once. After the
    completion of the only Processing block of an identifier, a second
    completion with that identifier that is not a cancellation leaves the
    terminal as the first left it: no second Finished block, no second
    prompt. *)
Theorem repeated_completion_is_inert :
  forall (ScalarResponse : Type) (isWatchable : ScalarResponse -> bool)
         (isPopup : bool) (p : Props) (ab : option Block)
         (pre post : list (BlockModel ScalarResponse))
         (x : BlockModel ScalarResponse)
         (response response' : ScalarResponse) (cancelled : bool)
         (echo echo' : option bool)
         (evaluatorOptions evaluatorOptions' : CommandOptions)
         (execOptions execOptions' : ExecOptions)
         (execUUID responseType responseType' : string),
    is_false echo = false ->
    is_false echo' = false ->
    forallb (fun b => negb (matches execUUID b)) (pre ++ post) = true ->
    matches execUUID x = true ->
    run isWatchable isPopup never_raises (terminal p (pre ++ x :: post) ab)
      [CommandComplete response cancelled echo evaluatorOptions execOptions
         execUUID responseType;
       CommandComplete response' false echo' evaluatorOptions' execOptions'
         execUUID responseType'] =
    run isWatchable isPopup never_raises (terminal p (pre ++ x :: post) ab)
      [CommandComplete response cancelled echo evaluatorOptions execOptions
         execUUID responseType].
Proof.
  intros SR isWatchable isPopup p ab pre post x response response' cancelled
    echo echo' eo eo' xo xo' execUUID responseType responseType'
    Hecho Hecho' Hnone Hx.
  rewrite forallb_app in Hnone. apply andb_true_iff in Hnone as [Hpre Hpost].
  unfold run. cbn [fold_left]. unfold dispatch at 2 3. cbn [handle].
  rewrite onExecEnd_matched by assumption. cbn [never_raises returned snd ret].
  unfold dispatch. cbn [handle].
  rewrite onExecEnd_unmatched.
  - reflexivity.
  - exact Hecho'.
  - rewrite forallb_app. cbn [forallb]. rewrite forallb_app. cbn [forallb].
    rewrite Hpre, Hpost. reflexivity.
Qed.

Lemma repeated_completion_is_inert_witness :
  run text_isWatchable false never_raises
    (terminal plain_props
       (([CancelledBlock None] ++ ProcessingBlock None "ls" "e1" :: [])) None)
    [CommandComplete "ok" false None
       {| alwaysViewIn := None |} {| alwaysViewIn := None |}
       "e1" "ScalarResponse";
     CommandComplete "again" false None
       {| alwaysViewIn := None |} {| alwaysViewIn := None |}
       "e1" "ScalarResponse"] =
  run text_isWatchable false never_raises
    (terminal plain_props
       (([CancelledBlock None] ++ ProcessingBlock None "ls" "e1" :: [])) None)
    [CommandComplete "ok" false None
       {| alwaysViewIn := None |} {| alwaysViewIn := None |}
       "e1" "ScalarResponse"].
Proof.
  apply (repeated_completion_is_inert string text_isWatchable false plain_props
           None [CancelledBlock None] [] (ProcessingBlock None "ls" "e1")
           "ok" "again" false None None
           {| alwaysViewIn := None |} {| alwaysViewIn := None |}
           {| alwaysViewIn := None |} {| alwaysViewIn := None |}
           "e1" "ScalarResponse" "ScalarResponse").
  - reflexivity.
  - reflexivity.
  - reflexivity.
  - reflexivity.
Defined.

(** X14. What the handlers call outside the component. [closeSidecar] is
    called by a start event whose echo is not false, in popup mode with the
    sidecar visible, and by nothing else; it is called before the state is
    updated, so also when the update throws. [onClear] is called by a clear
    event when the handler is supplied, and by nothing else. *)
Theorem outside_calls :
  forall (ScalarResponse : Type) (isWatchable : ScalarResponse -> bool)
         (isPopup : bool)
         (raises : ConstructorCall ScalarResponse -> option Exn)
         (this : ScrollableTerminal ScalarResponse)
         (ev : Event ScalarResponse),
    (In CloseSidecarCalled (effects (handle isWatchable isPopup raises this ev))
     <-> (exists execUUID command echo,
            ev = CommandStart execUUID command echo /\ is_false echo = false)
         /\ isPopup = true /\ sidecarIsVisible (props this) = true)
    /\ (In OnClearCalled (effects (handle isWatchable isPopup raises this ev))
        <-> ev = TerminalClear /\ onClear (props this) = true).
Proof.
  intros SR isWatchable isPopup raises this ev.
  destruct ev as [execUUID command echo
                 | response cancelled echo eo xo execUUID responseType
                 | | c]; cbn [handle].
  - rewrite onExecStart_effects. split; split.
    + intro H. destruct (is_false echo) eqn:Hecho; cbn in H; [contradiction |].
      destruct isPopup; cbn in H; [| contradiction].
      destruct (sidecarIsVisible (props this)); [| contradiction].
      split; [| auto]. exists execUUID, command, echo. auto.
    + intros [(u & c' & e' & Heq & He') [Hp Hs]].
      injection Heq as <- <- <-. rewrite He', Hp, Hs. cbn. auto.
    + intro H. destruct (negb (is_false echo) && _); cbn in H.
      * destruct H as [H | []]. discriminate H.
      * contradiction.
    + intros [H _]. discriminate H.
  - destruct (onExecEnd_effects isWatchable raises this response cancelled echo
                eo xo execUUID responseType) as [-> | [[e ->] | ->]];
      (split; split;
       [ intros H; cbn in H; intuition discriminate
       | intros [(u & c' & e' & Heq & _) _]; discriminate Heq
       | intros H; cbn in H; intuition discriminate
       | intros [H _]; discriminate H ]).
  - rewrite clear_effects. destruct (onClear (props this)); cbn.
    + split; split.
      * intros [H | []]; discriminate H.
      * intros [(u & c' & e' & Heq & _) _]; discriminate Heq.
      * auto.
      * auto.
    + split; split.
      * intros [].
      * intros [(u & c' & e' & Heq & _) _]; discriminate Heq.
      * intros [].
      * intros [_ H]; discriminate H.
  - cbn. split; split.
    + intros [].
    + intros [(u & c' & e' & Heq & _) _]; discriminate Heq.
    + intros [].
    + intros [H _]; discriminate H.
Qed.

(** X15. The handlers do not guard against an empty sequence. There a start
    event gives [undefined] to [Processing] and leaves its result as the
    only block, and a cancellation that matches nothing gives [undefined] to
    [Cancelled] and leaves its result followed by a new Active block; in
    both cases an exception of the constructor leaves the handler. *)
Theorem handlers_on_empty_sequence :
  forall (ScalarResponse : Type) (isWatchable : ScalarResponse -> bool)
         (isPopup : bool)
         (raises : ConstructorCall ScalarResponse -> option Exn)
         (p : Props) (ab : option Block)
         (execUUID command responseType : string) (echo : option bool)
         (response : ScalarResponse)
         (evaluatorOptions : CommandOptions) (execOptions : ExecOptions),
    is_false echo = false ->
    snd (onExecStart isPopup raises (terminal p [] ab) execUUID command echo) =
    match raises (CallProcessing None command execUUID) with
    | Some e => inl e
    | None => inr (terminal p [ProcessingBlock None command execUUID] ab)
    end
    /\
    onExecEnd isWatchable raises (terminal p [] ab) response true echo
      evaluatorOptions execOptions execUUID responseType =
    match raises (CallCancelled None) with
    | Some e => throw e
    | None =>
        match raises (CallActive None) with
        | Some e => throw e
        | None => ret (terminal p [CancelledBlock None; ActiveBlock ""] ab)
        end
    end.
Proof.
  intros SR isWatchable isPopup raises p ab execUUID command responseType echo
    response eo xo Hecho.
  split.
  - unfold onExecStart. rewrite Hecho.
    unfold setState, Processing, construct.
    cbn [state blocks terminal props _activeBlock].
    change (JsArray.get (@nil (BlockModel SR)) (JsArray.length (@nil (BlockModel SR)) - 1))
      with (@None (BlockModel SR)).
    destruct (isPopup && sidecarIsVisible p);
      destruct (raises (CallProcessing None command execUUID)); reflexivity.
  - rewrite onExecEnd_bare_cancel by (exact Hecho || reflexivity).
    reflexivity.
Qed.

Lemma handlers_on_empty_sequence_witness :
  snd (onExecStart false never_raises (terminal (ScalarResponse := string) plain_props [] None)
         "e1" "ls" None) =
  match never_raises (ScalarResponse := string) (CallProcessing None "ls" "e1") with
  | Some e => inl e
  | None => inr (terminal plain_props [ProcessingBlock None "ls" "e1"] None)
  end
  /\
  onExecEnd text_isWatchable never_raises (terminal plain_props [] None)
    "" true None {| alwaysViewIn := None |} {| alwaysViewIn := None |}
    "e1" "ScalarResponse" =
  match never_raises (ScalarResponse := string) (CallCancelled None) with
  | Some e => throw e
  | None =>
      match never_raises (ScalarResponse := string) (CallActive None) with
      | Some e => throw e
      | None => ret (terminal plain_props [CancelledBlock None; ActiveBlock ""] None)
      end
  end.
Proof.
  apply (handlers_on_empty_sequence string text_isWatchable false never_raises
           plain_props None "e1" "ls" "ScalarResponse" None ""
           {| alwaysViewIn := None |} {| alwaysViewIn := None |}).
  reflexivity.
Defined.

(** ** The table of namespaces *)

Section SpliceFacts.

Context {A : Type}.
Implicit Types (l pre post items : list A).

(** [l.splice(i, 1)] at a position of the array removes the element
    there. *)
Lemma splice_remove_at pre (x : A) post :
  splice (pre ++ x :: post) (JsArray.length pre) 1 [] = pre ++ post.
Proof.
  unfold splice, JsArray.clamp. rewrite length_concat.
  pose proof (length_nonneg pre) as Hp.
  pose proof (length_nonneg (x :: post)) as Hq.
  assert (Hx : JsArray.length (x :: post) = (1 + JsArray.length post)%Z)
    by (unfold JsArray.length; cbn [List.length]; lia).
  pose proof (length_nonneg post) as Hr.
  destruct (Z.ltb_spec (JsArray.length pre) 0) as [H | _]; [lia |].
  replace (Z.min (JsArray.length pre)
             (JsArray.length pre + JsArray.length (x :: post)))
    with (JsArray.length pre) by lia.
  replace (Z.min (Z.max 1 0)
             (JsArray.length pre + JsArray.length (x :: post)
              - JsArray.length pre)) with 1%Z by lia.
  replace (Z.to_nat (JsArray.length pre + 1)) with (S (List.length pre))
    by (unfold JsArray.length; lia).
  unfold JsArray.length. rewrite Nat2Z.id.
  rewrite firstn_app, Nat.sub_diag, firstn_all. cbn [firstn app].
  rewrite app_nil_r.
  replace (pre ++ x :: post) with ((pre ++ [x]) ++ post)
    by (rewrite <- app_assoc; reflexivity).
  rewrite skipn_app.
  replace (List.length (pre ++ [x])) with (S (List.length pre))
    by (rewrite List.length_app; cbn; lia).
  rewrite Nat.sub_diag, skipn_all2 by (rewrite List.length_app; cbn; lia).
  reflexivity.
Qed.

(** [l.splice(-1, 1)] removes the last element. *)
Lemma splice_remove_last pre (x : A) :
  splice (pre ++ [x]) (-1) 1 [] = pre.
Proof.
  unfold splice, JsArray.clamp. rewrite length_concat.
  pose proof (length_nonneg pre) as Hp.
  change (JsArray.length [x]) with 1%Z. cbn [Z.ltb Z.compare].
  replace (Z.max (JsArray.length pre + 1 + -1) 0) with (JsArray.length pre) by lia.
  replace (Z.min (Z.max 1 0) (JsArray.length pre + 1 - JsArray.length pre))
    with 1%Z by lia.
  replace (Z.to_nat (JsArray.length pre + 1)) with (S (List.length pre))
    by (unfold JsArray.length; lia).
  unfold JsArray.length. rewrite Nat2Z.id.
  rewrite firstn_app, Nat.sub_diag, firstn_all. cbn [firstn app].
  rewrite skipn_all2 by (rewrite List.length_app; cbn; lia).
  rewrite !app_nil_r. reflexivity.
Qed.

(** [l.splice(1, 0, x)] puts [x] in the second place of a non-empty
    array. *)
Lemma splice_insert_second (a x : A) l :
  splice (a :: l) 1 0 [x] = a :: x :: l.
Proof.
  unfold splice, JsArray.clamp.
  assert (Hl : JsArray.length (a :: l) = (1 + JsArray.length l)%Z)
    by (unfold JsArray.length; cbn [List.length]; lia).
  pose proof (length_nonneg l) as Hp. rewrite Hl.
  cbn [Z.ltb Z.compare].
  replace (Z.min 1 (1 + JsArray.length l)) with 1%Z by lia.
  replace (Z.min (Z.max 0 0) (1 + JsArray.length l - 1)) with 0%Z by lia.
  reflexivity.
Qed.

End SpliceFacts.

Lemma get_map {A B : Type} (f : A -> B) (l : list A) (i : Z) :
  JsArray.get (map f l) i = option_map f (JsArray.get l i).
Proof.
  unfold JsArray.get. destruct (i <? 0)%Z; [reflexivity |].
  apply nth_error_map.
Qed.

Lemma length_map {A B : Type} (f : A -> B) (l : list A) :
  JsArray.length (map f l) = JsArray.length l.
Proof. unfold JsArray.length. rewrite List.length_map. reflexivity. Qed.

Lemma prefix_iff (needle hay : string) :
  String.prefix needle hay = true <->
  exists after, hay = String.append needle after.
Proof.
  revert hay. induction needle as [| a r IH]; intro hay.
  - split; [intros _; exists hay; reflexivity | destruct hay; reflexivity].
  - destruct hay as [| b rest]; cbn.
    + split; [discriminate | intros [after H]; discriminate H].
    + destruct (Ascii.ascii_dec a b) as [<- | Hne].
      * rewrite IH. split; intros [after H]; exists after.
        -- rewrite H. reflexivity.
        -- injection H as H. exact H.
      * split; [discriminate |]. intros [after H]. injection H as H _.
        congruence.
Qed.

(** [includes] holds exactly of the strings that contain the needle. *)
Lemma includes_iff (needle hay : string) :
  includes needle hay = true <->
  exists before after,
    hay = String.append before (String.append needle after).
Proof.
  split.
  - induction hay as [| a rest IH]; cbn [includes]; intro H.
    + rewrite orb_false_r in H. apply prefix_iff in H as [after H].
      exists EmptyString, after. exact H.
    + apply orb_true_iff in H as [H | H].
      * apply prefix_iff in H as [after H].
        exists EmptyString, after. exact H.
      * destruct (IH H) as (before & after & ->).
        exists (String a before), after. reflexivity.
  - intros (before & after & ->).
    induction before as [| a r IH]; cbn [String.append].
    + assert (Hp : String.prefix needle (String.append needle after) = true)
        by (apply prefix_iff; exists after; reflexivity).
      destruct (String.append needle after); cbn [includes]; rewrite Hp;
        reflexivity.
    + cbn [includes]. rewrite IH. apply orb_true_r.
Qed.

Section NamespaceFacts.

Import Namespace.

Variable radioTableCellToString : option RadioTableCell -> string.

Implicit Types (first dflt row : Row) (pre post rows : list Row).

Local Abbreviation is_default := (fun r : Row => String.eqb (name r) "default").
Local Abbreviation is_current cur := (fun r : Row => String.eqb (name r) cur).
Local Abbreviation as_row := (radio_row radioTableCellToString).

Lemma rows_as_radio_rows rows :
  map (fun rtRow => Some (with_onSelect radioTableCellToString rtRow))
    (map t2rt rows) = map as_row rows.
Proof. rewrite map_map. reflexivity. Qed.

(** The position of the first row named ["default"], when the first row of
    the table is not that row. *)
Lemma default_row_index first pre dflt post :
  String.eqb (name first) "default" = false ->
  forallb (fun r => negb (is_default r)) pre = true ->
  name dflt = "default" ->
  JsArray.findIndex is_default (first :: pre ++ dflt :: post) =
  (1 + JsArray.length pre)%Z.
Proof.
  intros Hfirst Hpre Hd.
  change (first :: pre ++ dflt :: post) with ((first :: pre) ++ dflt :: post).
  rewrite findIndex_first.
  - unfold JsArray.length. cbn [List.length]. lia.
  - cbn [forallb]. rewrite Hfirst, Hpre. reflexivity.
  - rewrite Hd. reflexivity.
Qed.

(** The current namespace, when it is not ["default"], is not found at the
    position of the default row. *)
Lemma current_row_not_default cur first pre dflt post :
  cur <> "default" ->
  name dflt = "default" ->
  JsArray.findIndex (is_current cur) (first :: pre ++ dflt :: post) <>
  (1 + JsArray.length pre)%Z.
Proof.
  intros Hcur Hd Heq.
  pose proof (length_nonneg pre) as Hlen.
  destruct (findIndex_get (is_current cur) (first :: pre ++ dflt :: post))
    as (x & Hget & Hx); [lia |].
  rewrite Heq in Hget.
  change (first :: pre ++ dflt :: post)
    with ((first :: pre) ++ dflt :: post) in Hget.
  replace (1 + JsArray.length pre)%Z with (JsArray.length (first :: pre)) in Hget
    by (unfold JsArray.length; cbn [List.length]; lia).
  rewrite get_at in Hget. injection Hget as <-.
  cbn beta in Hx. apply String.eqb_eq in Hx. congruence.
Qed.

(** [asRadioTable] on a table of more than two rows whose default row is
    not the first, when the current namespace is not ["default"]: the
    default row is moved to the second place, and the index of the selected
    row is incremented when it is below the former index of the default
    row. *)
Lemma asRadioTable_moves_default cur hdr first pre dflt post :
  String.eqb (name first) "default" = false ->
  forallb (fun r => negb (is_default r)) pre = true ->
  name dflt = "default" ->
  cur <> "default" ->
  pre ++ post <> [] ->
  asRadioTable radioTableCellToString cur
    {| header := hdr; body := first :: pre ++ dflt :: post |} =
  {| apiVersion := "kui-shell/v1";
     kind := "RadioTable";
     title := "Namespaces";
     defaultSelectedIdx :=
       if (JsArray.findIndex (is_current cur) (first :: pre ++ dflt :: post)
           <? 1 + JsArray.length pre)%Z
       then (JsArray.findIndex (is_current cur) (first :: pre ++ dflt :: post)
             + 1)%Z
       else JsArray.findIndex (is_current cur) (first :: pre ++ dflt :: post);
     radio_header := t2rt hdr;
     radio_body := map as_row (first :: dflt :: pre ++ post) |}.
Proof.
  intros Hfirst Hpre Hd Hcur Hmore.
  unfold asRadioTable. cbn [body header].
  rewrite rows_as_radio_rows.
  rewrite (default_row_index first pre dflt post Hfirst Hpre Hd).
  pose proof (current_row_not_default cur first pre dflt post Hcur Hd) as Hne.
  pose proof (length_nonneg pre) as Hlen.
  destruct (Z.eqb_spec (1 + JsArray.length pre) 0) as [H0 | _]; [lia |].
  destruct (Z.eqb_spec (1 + JsArray.length pre)
              (JsArray.findIndex (is_current cur) (first :: pre ++ dflt :: post)))
    as [Heq | _]; [congruence |].
  assert (Hlong : (JsArray.length (first :: pre ++ dflt :: post) >? 2)%Z = true).
  { apply Z.gtb_lt. unfold JsArray.length.
    cbn [List.length]. rewrite List.length_app. cbn [List.length].
    assert (List.length (pre ++ post) <> 0%nat)
      by (intro E; apply length_zero_iff_nil in E; contradiction).
    rewrite List.length_app in H. lia. }
  rewrite Hlong. cbn [negb andb].
  change (first :: pre ++ dflt :: post) with ((first :: pre) ++ dflt :: post).
  rewrite map_app. cbn [map].
  replace (1 + JsArray.length pre)%Z
    with (JsArray.length (as_row first :: map as_row pre))
    by (unfold JsArray.length; cbn [List.length];
        rewrite List.length_map; lia).
  change (as_row first :: map as_row pre ++ as_row dflt :: map as_row post)
    with ((as_row first :: map as_row pre) ++ as_row dflt :: map as_row post).
  rewrite get_at, splice_remove_at. cbn [app].
  rewrite splice_insert_second.
  rewrite map_app. reflexivity.
Qed.

(** The row at an index other than that of the default row, before and
    after the move. *)
Lemma get_after_move {A : Type} (first dflt : A) (pre post : list A) (d : Z) :
  (1 <= d)%Z -> d <> (1 + JsArray.length pre)%Z ->
  JsArray.get (first :: dflt :: pre ++ post)
    (if (d <? 1 + JsArray.length pre)%Z then (d + 1)%Z else d) =
  JsArray.get (first :: pre ++ dflt :: post) d.
Proof.
  intros Hd Hne. unfold JsArray.get, JsArray.length in *.
  assert (Hcons : forall (a : A) l n, nth_error (a :: l) (S n) = nth_error l n)
    by reflexivity.
  destruct (Z.ltb_spec d (1 + Z.of_nat (List.length pre))) as [Hlt | Hge].
  - destruct (Z.ltb_spec (d + 1) 0); [lia |].
    destruct (Z.ltb_spec d 0); [lia |].
    replace (Z.to_nat (d + 1)) with (S (S (Z.to_nat (d - 1)))) by lia.
    replace (Z.to_nat d) with (S (Z.to_nat (d - 1))) by lia.
    rewrite !Hcons.
    rewrite !nth_error_app1 by lia. reflexivity.
  - destruct (Z.ltb_spec d 0); [lia |].
    replace (Z.to_nat d)
      with (S (S (List.length pre + Z.to_nat (d - 2 - Z.of_nat (List.length pre)))))
      by lia.
    rewrite !Hcons.
    rewrite nth_error_app2 by lia.
    replace (List.length pre + Z.to_nat (d - 2 - Z.of_nat (List.length pre))
             - List.length pre)%nat
      with (Z.to_nat (d - 2 - Z.of_nat (List.length pre))) by lia.
    rewrite nth_error_app2 by lia.
    replace (S (List.length pre + Z.to_nat (d - 2 - Z.of_nat (List.length pre)))
             - List.length pre)%nat
      with (S (Z.to_nat (d - 2 - Z.of_nat (List.length pre)))) by lia.
    rewrite Hcons. reflexivity.
Qed.

(** [asRadioTable] on a table of more than two rows without a row named
    ["default"], when the current namespace is listed. *)
Lemma asRadioTable_without_default cur hdr first mid lst :
  forallb (fun r => negb (is_default r)) (first :: mid ++ [lst]) = true ->
  existsb (is_current cur) (first :: mid ++ [lst]) = true ->
  mid <> [] ->
  asRadioTable radioTableCellToString cur
    {| header := hdr; body := first :: mid ++ [lst] |} =
  {| apiVersion := "kui-shell/v1";
     kind := "RadioTable";
     title := "Namespaces";
     defaultSelectedIdx :=
       JsArray.findIndex (is_current cur) (first :: mid ++ [lst]);
     radio_header := t2rt hdr;
     radio_body := as_row first :: None :: map as_row mid |}.
Proof.
  intros Hnone Hlisted Hmid.
  unfold asRadioTable. cbn [body header].
  rewrite rows_as_radio_rows.
  rewrite (findIndex_none is_default _ Hnone).
  assert (Hd : (0 <= JsArray.findIndex (is_current cur) (first :: mid ++ [lst]))%Z).
  { destruct (JsArray.findIndex (is_current cur) (first :: mid ++ [lst]) >=? 0)%Z
      eqn:E; [apply Z.geb_le in E; lia |].
    apply findIndex_negative in E. exfalso.
    apply existsb_exists in Hlisted as (x & Hin & Hx).
    rewrite forallb_forall in E. specialize (E x Hin). cbn beta in E.
    rewrite Hx in E. discriminate E. }
  destruct (Z.eqb_spec (-1) (JsArray.findIndex (is_current cur)
                               (first :: mid ++ [lst]))) as [E | _]; [lia |].
  assert (Hlong : (JsArray.length (first :: mid ++ [lst]) >? 2)%Z = true).
  { apply Z.gtb_lt. unfold JsArray.length.
    cbn [List.length]. rewrite List.length_app. cbn [List.length].
    destruct mid; [contradiction | cbn [List.length]; lia]. }
  rewrite Hlong. cbn [Z.eqb negb andb].
  destruct (Z.ltb_spec (JsArray.findIndex (is_current cur) (first :: mid ++ [lst]))
              (-1)) as [E | _]; [lia |].
  cbn [map]. rewrite map_app. cbn [map].
  change (JsArray.get (as_row first :: map as_row mid ++ [as_row lst]) (-1))
    with (@None (option RadioTableRow)).
  change (as_row first :: map as_row mid ++ [as_row lst])
    with ((as_row first :: map as_row mid) ++ [as_row lst]).
  rewrite splice_remove_last, splice_insert_second. reflexivity.
Qed.

End NamespaceFacts.

(** X16. In a table of more than two rows whose first row named
    ["default"] is not the first row, and when the current namespace is not
    ["default"], [asRadioTable] moves that row to the second place: the first
    row stays first, and the other rows follow in their order, each
    converted by [t2rt] and given its [onSelect]. *)
Theorem default_namespace_moves_to_second_row :
  forall (radioTableCellToString : option Namespace.RadioTableCell -> string)
         (currentNamespace : string) (hdr first dflt : Namespace.Row)
         (pre post : list Namespace.Row),
    String.eqb (Namespace.name first) "default" = false ->
    forallb (fun r => negb (String.eqb (Namespace.name r) "default")) pre = true ->
    Namespace.name dflt = "default" ->
    currentNamespace <> "default" ->
    pre ++ post <> [] ->
    Namespace.radio_body
      (Namespace.asRadioTable radioTableCellToString currentNamespace
         {| Namespace.header := hdr;
            Namespace.body := first :: pre ++ dflt :: post |}) =
    map (Namespace.radio_row radioTableCellToString)
      (first :: dflt :: pre ++ post).
Proof.
  intros f cur hdr first dflt pre post Hfirst Hpre Hd Hcur Hmore.
  rewrite asRadioTable_moves_default by assumption. reflexivity.
Qed.

Lemma default_namespace_moves_to_second_row_witness :
  Namespace.radio_body
    (Namespace.asRadioTable sample_cellToString "kube-system"
       {| Namespace.header := named "NAME";
          Namespace.body :=
            named "alpha" :: [named "beta"] ++ named "default"
              :: [named "kube-system"] |}) =
  map (Namespace.radio_row sample_cellToString)
    (named "alpha" :: named "default" :: [named "beta"] ++ [named "kube-system"]).
Proof.
  apply (default_namespace_moves_to_second_row sample_cellToString "kube-system"
           (named "NAME") (named "alpha") (named "default")
           [named "beta"] [named "kube-system"]).
  - reflexivity.
  - reflexivity.
  - reflexivity.
  - discriminate.
  - discriminate.
Defined.

(** X17. Under the same conditions, when the current namespace is listed
    and is not the first row, the selected index that [asRadioTable] returns
    still designates the row of the current namespace after the move. *)
Theorem selection_follows_current_namespace :
  forall (radioTableCellToString : option Namespace.RadioTableCell -> string)
         (currentNamespace : string) (hdr first dflt : Namespace.Row)
         (pre post : list Namespace.Row),
    String.eqb (Namespace.name first) "default" = false ->
    forallb (fun r => negb (String.eqb (Namespace.name r) "default")) pre = true ->
    Namespace.name dflt = "default" ->
    currentNamespace <> "default" ->
    pre ++ post <> [] ->
    (1 <= JsArray.findIndex
            (fun r => String.eqb (Namespace.name r) currentNamespace)
            (first :: pre ++ dflt :: post))%Z ->
    exists row,
      Namespace.name row = currentNamespace
      /\ JsArray.get
           (Namespace.radio_body
              (Namespace.asRadioTable radioTableCellToString currentNamespace
                 {| Namespace.header := hdr;
                    Namespace.body := first :: pre ++ dflt :: post |}))
           (Namespace.defaultSelectedIdx
              (Namespace.asRadioTable radioTableCellToString currentNamespace
                 {| Namespace.header := hdr;
                    Namespace.body := first :: pre ++ dflt :: post |})) =
         Some (Namespace.radio_row radioTableCellToString row).
Proof.
  intros f cur hdr first dflt pre post Hfirst Hpre Hd Hcur Hmore Hsel.
  rewrite asRadioTable_moves_default by assumption.
  cbn [Namespace.radio_body Namespace.defaultSelectedIdx].
  destruct (findIndex_get
              (fun r => String.eqb (Namespace.name r) cur)
              (first :: pre ++ dflt :: post)) as (row & Hget & Hrow); [lia |].
  exists row. split; [apply String.eqb_eq, Hrow |].
  rewrite get_map, get_after_move.
  - rewrite Hget. reflexivity.
  - exact Hsel.
  - apply current_row_not_default; assumption.
Qed.

Lemma selection_follows_current_namespace_witness :
  exists row,
    Namespace.name row = "kube-system"
    /\ JsArray.get
         (Namespace.radio_body
            (Namespace.asRadioTable sample_cellToString "kube-system"
               {| Namespace.header := named "NAME";
                  Namespace.body :=
                    named "alpha" :: [named "beta"] ++ named "default"
                      :: [named "kube-system"] |}))
         (Namespace.defaultSelectedIdx
            (Namespace.asRadioTable sample_cellToString "kube-system"
               {| Namespace.header := named "NAME";
                  Namespace.body :=
                    named "alpha" :: [named "beta"] ++ named "default"
                      :: [named "kube-system"] |})) =
       Some (Namespace.radio_row sample_cellToString row).
Proof.
  apply (selection_follows_current_namespace sample_cellToString "kube-system"
           (named "NAME") (named "alpha") (named "default")
           [named "beta"] [named "kube-system"]).
  - reflexivity.
  - reflexivity.
  - reflexivity.
  - discriminate.
  - discriminate.
  - cbn. lia.
Defined.

(** X18. When the current namespace is the first row of such a table, the
    index is incremented all the same, because it is below that of the
    default row, although the first row does not move: the selected index
    becomes 1, which designates the row named ["default"] and not the row of
    the current namespace. *)
Theorem selection_leaves_first_row :
  forall (radioTableCellToString : option Namespace.RadioTableCell -> string)
         (currentNamespace : string) (hdr first dflt : Namespace.Row)
         (pre post : list Namespace.Row),
    Namespace.name first = currentNamespace ->
    currentNamespace <> "default" ->
    forallb (fun r => negb (String.eqb (Namespace.name r) "default")) pre = true ->
    Namespace.name dflt = "default" ->
    pre ++ post <> [] ->
    Namespace.defaultSelectedIdx
      (Namespace.asRadioTable radioTableCellToString currentNamespace
         {| Namespace.header := hdr;
            Namespace.body := first :: pre ++ dflt :: post |}) = 1%Z
    /\ JsArray.get
         (Namespace.radio_body
            (Namespace.asRadioTable radioTableCellToString currentNamespace
               {| Namespace.header := hdr;
                  Namespace.body := first :: pre ++ dflt :: post |})) 1 =
       Some (Namespace.radio_row radioTableCellToString dflt)
    /\ JsArray.get
         (Namespace.radio_body
            (Namespace.asRadioTable radioTableCellToString currentNamespace
               {| Namespace.header := hdr;
                  Namespace.body := first :: pre ++ dflt :: post |})) 0 =
       Some (Namespace.radio_row radioTableCellToString first).
Proof.
  intros f cur hdr first dflt pre post Hfirst Hcur Hpre Hd Hmore.
  assert (Hnd : String.eqb (Namespace.name first) "default" = false)
    by (apply String.eqb_neq; congruence).
  rewrite asRadioTable_moves_default by assumption.
  cbn [Namespace.radio_body Namespace.defaultSelectedIdx].
  assert (H0 : JsArray.findIndex
                 (fun r => String.eqb (Namespace.name r) cur)
                 (first :: pre ++ dflt :: post) = 0%Z).
  { unfold JsArray.findIndex. cbn [JsArray.findIndex_from].
    rewrite Hfirst, String.eqb_refl. reflexivity. }
  rewrite H0. pose proof (length_nonneg pre) as Hlen.
  destruct (Z.ltb_spec 0 (1 + JsArray.length pre)) as [_ | H]; [| lia].
  repeat split; reflexivity.
Qed.

Lemma selection_leaves_first_row_witness :
  Namespace.defaultSelectedIdx
    (Namespace.asRadioTable sample_cellToString "alpha"
       {| Namespace.header := named "NAME";
          Namespace.body :=
            named "alpha" :: [named "beta"] ++ named "default" :: [] |}) = 1%Z
  /\ JsArray.get
       (Namespace.radio_body
          (Namespace.asRadioTable sample_cellToString "alpha"
             {| Namespace.header := named "NAME";
                Namespace.body :=
                  named "alpha" :: [named "beta"] ++ named "default" :: [] |})) 1 =
     Some (Namespace.radio_row sample_cellToString (named "default"))
  /\ JsArray.get
       (Namespace.radio_body
          (Namespace.asRadioTable sample_cellToString "alpha"
             {| Namespace.header := named "NAME";
                Namespace.body :=
                  named "alpha" :: [named "beta"] ++ named "default" :: [] |})) 0 =
     Some (Namespace.radio_row sample_cellToString (named "alpha")).
Proof.
  apply (selection_leaves_first_row sample_cellToString "alpha"
           (named "NAME") (named "alpha") (named "default")
           [named "beta"] []).
  - reflexivity.
  - discriminate.
  - reflexivity.
  - reflexivity.
  - discriminate.
Defined.

(** X19. When the current namespace is not listed in such a table, the
    index [-1] that [findIndex] gave is incremented too: the table comes
    back with its first row selected. *)
Theorem unlisted_namespace_selects_first_row :
  forall (radioTableCellToString : option Namespace.RadioTableCell -> string)
         (currentNamespace : string) (hdr first dflt : Namespace.Row)
         (pre post : list Namespace.Row),
    forallb (fun r => negb (String.eqb (Namespace.name r) currentNamespace))
      (first :: pre ++ dflt :: post) = true ->
    String.eqb (Namespace.name first) "default" = false ->
    forallb (fun r => negb (String.eqb (Namespace.name r) "default")) pre = true ->
    Namespace.name dflt = "default" ->
    pre ++ post <> [] ->
    Namespace.defaultSelectedIdx
      (Namespace.asRadioTable radioTableCellToString currentNamespace
         {| Namespace.header := hdr;
            Namespace.body := first :: pre ++ dflt :: post |}) = 0%Z.
Proof.
  intros f cur hdr first dflt pre post Hnone Hfirst Hpre Hd Hmore.
  assert (Hcur : cur <> "default").
  { intros ->. rewrite forallb_forall in Hnone.
    specialize (Hnone dflt). rewrite Hd in Hnone. cbn in Hnone.
    assert (Hin : In dflt (first :: pre ++ dflt :: post))
      by (right; apply in_or_app; right; left; reflexivity).
    specialize (Hnone Hin). discriminate Hnone. }
  rewrite asRadioTable_moves_default by assumption.
  cbn [Namespace.defaultSelectedIdx].
  rewrite (findIndex_none _ _ Hnone).
  pose proof (length_nonneg pre) as Hlen.
  destruct (Z.ltb_spec (-1) (1 + JsArray.length pre)) as [_ | H]; [| lia].
  reflexivity.
Qed.

Lemma unlisted_namespace_selects_first_row_witness :
  Namespace.defaultSelectedIdx
    (Namespace.asRadioTable sample_cellToString "gone"
       {| Namespace.header := named "NAME";
          Namespace.body :=
            named "alpha" :: [named "beta"] ++ named "default" :: [] |}) = 0%Z.
Proof.
  apply (unlisted_namespace_selects_first_row sample_cellToString "gone"
           (named "NAME") (named "alpha") (named "default")
           [named "beta"] []).
  - reflexivity.
  - reflexivity.
  - reflexivity.
  - reflexivity.
  - discriminate.
Defined.

(** X20. A table of more than two rows that lists the current namespace
    but has no row named ["default"] is damaged: [findIndex] gives [-1],
    [body[-1]] is [undefined], [splice(-1, 1)] removes the last row and
    [splice(1, 0, undefined)] puts [undefined] in the second place. The
    selected index is kept, while every row after the first has moved down
    by one. *)
Theorem missing_default_row_drops_last_row :
  forall (radioTableCellToString : option Namespace.RadioTableCell -> string)
         (currentNamespace : string) (hdr first lst : Namespace.Row)
         (mid : list Namespace.Row),
    forallb (fun r => negb (String.eqb (Namespace.name r) "default"))
      (first :: mid ++ [lst]) = true ->
    existsb (fun r => String.eqb (Namespace.name r) currentNamespace)
      (first :: mid ++ [lst]) = true ->
    mid <> [] ->
    Namespace.radio_body
      (Namespace.asRadioTable radioTableCellToString currentNamespace
         {| Namespace.header := hdr; Namespace.body := first :: mid ++ [lst] |}) =
    Namespace.radio_row radioTableCellToString first
      :: None :: map (Namespace.radio_row radioTableCellToString) mid
    /\ Namespace.defaultSelectedIdx
         (Namespace.asRadioTable radioTableCellToString currentNamespace
            {| Namespace.header := hdr; Namespace.body := first :: mid ++ [lst] |}) =
       JsArray.findIndex
         (fun r => String.eqb (Namespace.name r) currentNamespace)
         (first :: mid ++ [lst]).
Proof.
  intros f cur hdr first lst mid Hnone Hlisted Hmid.
  rewrite asRadioTable_without_default by assumption.
  split; reflexivity.
Qed.

Lemma missing_default_row_drops_last_row_witness :
  Namespace.radio_body
    (Namespace.asRadioTable sample_cellToString "prod"
       {| Namespace.header := named "NAME";
          Namespace.body := named "dev" :: [named "prod"] ++ [named "test"] |}) =
  Namespace.radio_row sample_cellToString (named "dev")
    :: None :: map (Namespace.radio_row sample_cellToString) [named "prod"]
  /\ Namespace.defaultSelectedIdx
       (Namespace.asRadioTable sample_cellToString "prod"
          {| Namespace.header := named "NAME";
             Namespace.body := named "dev" :: [named "prod"] ++ [named "test"] |}) =
     JsArray.findIndex
       (fun r => String.eqb (Namespace.name r) "prod")
       (named "dev" :: [named "prod"] ++ [named "test"]).
Proof.
  apply (missing_default_row_drops_last_row sample_cellToString "prod"
           (named "NAME") (named "dev") (named "test") [named "prod"]).
  - reflexivity.
  - reflexivity.
  - discriminate.
Defined.

(** X21. A table is converted row by row, in order, with the index of the
    first row of the current namespace (or [-1]) as selection, when its
    first row is named ["default"], or the current namespace is
    ["default"], or it has at most two rows. *)
Theorem table_kept_in_order :
  forall (radioTableCellToString : option Namespace.RadioTableCell -> string)
         (currentNamespace : string) (hdr : Namespace.Row)
         (rows : list Namespace.Row),
    (match rows with
     | first :: _ => Namespace.name first = "default"
     | [] => False
     end
     \/ currentNamespace = "default"
     \/ (List.length rows <= 2)%nat) ->
    Namespace.radio_body
      (Namespace.asRadioTable radioTableCellToString currentNamespace
         {| Namespace.header := hdr; Namespace.body := rows |}) =
    map (Namespace.radio_row radioTableCellToString) rows
    /\ Namespace.defaultSelectedIdx
         (Namespace.asRadioTable radioTableCellToString currentNamespace
            {| Namespace.header := hdr; Namespace.body := rows |}) =
       JsArray.findIndex
         (fun r => String.eqb (Namespace.name r) currentNamespace) rows.
Proof.
  intros f cur hdr rows H.
  unfold Namespace.asRadioTable.
  cbn [Namespace.body Namespace.header].
  rewrite rows_as_radio_rows.
  assert (Hcond :
    negb (JsArray.findIndex
            (fun r => String.eqb (Namespace.name r) "default") rows =? 0)%Z
    && negb (JsArray.findIndex
               (fun r => String.eqb (Namespace.name r) "default") rows
             =? JsArray.findIndex
                  (fun r => String.eqb (Namespace.name r) cur) rows)%Z
    && (JsArray.length rows >? 2)%Z = false).
  { destruct H as [H | [-> | H]].
    - destruct rows as [| first rest]; [contradiction |].
      unfold JsArray.findIndex at 1. cbn [JsArray.findIndex_from].
      rewrite H. reflexivity.
    - rewrite Z.eqb_refl. cbn [negb]. rewrite andb_false_r. reflexivity.
    - assert (E : (JsArray.length rows >? 2)%Z = false).
      { unfold JsArray.length. destruct (Z.gtb_spec (Z.of_nat (List.length rows)) 2);
          [lia | reflexivity]. }
      rewrite E. apply andb_false_r. }
  rewrite Hcond. split; reflexivity.
Qed.

Lemma table_kept_in_order_witness :
  Namespace.radio_body
    (Namespace.asRadioTable sample_cellToString "beta"
       {| Namespace.header := named "NAME";
          Namespace.body := [named "default"; named "alpha"; named "beta"] |}) =
  map (Namespace.radio_row sample_cellToString)
    [named "default"; named "alpha"; named "beta"]
  /\ Namespace.defaultSelectedIdx
       (Namespace.asRadioTable sample_cellToString "beta"
          {| Namespace.header := named "NAME";
             Namespace.body := [named "default"; named "alpha"; named "beta"] |}) =
     JsArray.findIndex
       (fun r => String.eqb (Namespace.name r) "beta")
       [named "default"; named "alpha"; named "beta"].
Proof.
  apply (table_kept_in_order sample_cellToString "beta" (named "NAME")
           [named "default"; named "alpha"; named "beta"]).
  left. reflexivity.
Defined.

(** X22. The hints of a cell. [hintsFor] gives at most one badge, the first
    of green, yellow, red and gray whose class name occurs in [css], after
    [HideWithSidecar], which is given exactly when [outerCSS] contains
    ['hide-with-sidecar']; absent class names give no hint. *)
Theorem hintsFor_gives_one_badge :
  forall (outerCSS css : option string),
    Namespace.hintsFor outerCSS css =
    (if includes "hide-with-sidecar" (tested outerCSS)
     then [Namespace.HideWithSidecar] else [])
    ++ (if includes "green-background" (tested css)
        then [Namespace.HaveGreenBadge]
        else if includes "yellow-background" (tested css)
        then [Namespace.HaveYellowBadge]
        else if includes "red-background" (tested css)
        then [Namespace.HaveRedBadge]
        else if includes "gray-background" (tested css)
        then [Namespace.HaveGrayBadge]
        else [])
    /\ (List.length (Namespace.hintsFor outerCSS css) <= 2)%nat
    /\ NoDup (Namespace.hintsFor outerCSS css)
    /\ Namespace.hintsFor None None = []
    /\ (In Namespace.HaveGreenBadge (Namespace.hintsFor outerCSS css) <->
        exists before after,
          tested css =
          String.append before (String.append "green-background" after)).
Proof.
  intros outerCSS css.
  assert (Hshape : Namespace.hintsFor outerCSS css =
    (if includes "hide-with-sidecar" (tested outerCSS)
     then [Namespace.HideWithSidecar] else [])
    ++ (if includes "green-background" (tested css)
        then [Namespace.HaveGreenBadge]
        else if includes "yellow-background" (tested css)
        then [Namespace.HaveYellowBadge]
        else if includes "red-background" (tested css)
        then [Namespace.HaveRedBadge]
        else if includes "gray-background" (tested css)
        then [Namespace.HaveGrayBadge]
        else [])).
  { unfold Namespace.hintsFor. cbn zeta.
    destruct (includes "green-background" (tested css)); [reflexivity |].
    destruct (includes "yellow-background" (tested css)); [reflexivity |].
    destruct (includes "red-background" (tested css)); [reflexivity |].
    destruct (includes "gray-background" (tested css)); [reflexivity |].
    rewrite app_nil_r. reflexivity. }
  split; [exact Hshape |].
  rewrite <- includes_iff. rewrite Hshape.
  destruct (includes "hide-with-sidecar" (tested outerCSS));
    destruct (includes "green-background" (tested css));
    destruct (includes "yellow-background" (tested css));
    destruct (includes "red-background" (tested css));
    destruct (includes "gray-background" (tested css));
    cbn [app List.length];
    (split; [lia |]);
    (split; [repeat constructor; cbn; intuition discriminate |]);
    (split; [reflexivity |]);
    cbn; intuition discriminate.
Qed.
